(** * Snowball Earth energy balance model

    A shallow embedding of [snowball_earth_model.py]: the two feedback
    functions, the net energy balance, the relaxation solver and the solar
    sweep of [run_snowball_experiment].

    Numbers.  Python's [float] is modelled by the real numbers [R] of the
    Standard Library: arithmetic is exact, and there is neither rounding nor
    infinities.  The one non-number the program builds on purpose, [np.nan]
    for a sweep point without an equilibrium, is modelled by [None] in an
    [option R].  [max_iterations] is a Python [int] and is modelled by [Z];
    [range] of a non-positive integer is empty.

    Where a property turns on rounding (an exact value, a strict bound) the
    expression of the source is also evaluated on binary64 floats, in
    [Module Float64]. *)

From Stdlib Require Import Reals Ranalysis5 Lra Lia List ZArith Bool Sorted PrimFloat.
Import ListNotations.

Open Scope R_scope.

(** ** Scalars and arrays

    Every function of the model takes "float or array".  NumPy gives both the
    same code path: a universal function is applied to each element and a
    binary operator is applied position by position.  The class below is that
    capability; the two instances are a Python scalar and a one-dimensional
    array. *)

Class Numeric (A : Type) : Type := {
  lift1 : (R -> R) -> A -> A;
  lift2 : (R -> R -> R) -> A -> A -> A
}.

#[export] Instance Numeric_scalar : Numeric R := {
  lift1 f x := f x;
  lift2 f x y := f x y
}.

(** Two arrays that meet in a binary operator of the model always come from
    the same temperature array, so their lengths agree. *)
#[export] Instance Numeric_array : Numeric (list R) := {
  lift1 f xs := map f xs;
  lift2 f xs ys := map (fun p => f (fst p) (snd p)) (combine xs ys)
}.

(** [np.clip(x, lo, hi)] is [minimum(hi, maximum(x, lo))]. *)
Definition clip (x lo hi : R) : R := Rmin hi (Rmax x lo).

Module Np.
Section Broadcast.
Context {A : Type} `{Numeric A}.

(** array - scalar *)
Definition sub_s (a : A) (s : R) : A := lift1 (fun x => x - s) a.
(** scalar - array *)
Definition s_sub (s : R) (a : A) : A := lift1 (fun x => s - x) a.
(** scalar + array *)
Definition s_add (s : R) (a : A) : A := lift1 (fun x => s + x) a.
(** scalar * array *)
Definition s_mul (s : R) (a : A) : A := lift1 (fun x => s * x) a.
(** array * scalar *)
Definition mul_s (a : A) (s : R) : A := lift1 (fun x => x * s) a.
(** array / scalar *)
Definition div_s (a : A) (s : R) : A := lift1 (fun x => x / s) a.
(** array ** n *)
Definition pow (a : A) (n : nat) : A := lift1 (fun x => x ^ n) a.
(** array * array *)
Definition mul (a b : A) : A := lift2 Rmult a b.
(** array - array *)
Definition sub (a b : A) : A := lift2 Rminus a b.
(** np.tanh *)
Definition tanh (a : A) : A := lift1 Rtrigo_def.tanh a.
(** np.clip with scalar bounds *)
Definition clip (a : A) (lo hi : R) : A := lift1 (fun x => clip x lo hi) a.
End Broadcast.
End Np.

(** ** Physical constants *)

Definition STEFAN_BOLTZMANN : R := 5.67e-8.
Definition SOLAR_CONSTANT : R := 1365.

(** ** Feedback functions *)

Section Model.
Context {A : Type} `{Numeric A}.

Definition albedo (temperature : A) : A :=
  let T_freeze := 273.15 in
  let alpha_ice := 0.6 in
  let alpha_water := 0.3 in
  let alpha :=
    Np.s_add alpha_water
      (Np.s_mul ((alpha_ice - alpha_water) * 0.5)
         (Np.s_sub 1 (Np.tanh (Np.div_s (Np.sub_s temperature T_freeze) 10))))
  in
  alpha.

Definition greenhouse_effect (temperature : A) : A :=
  let epsilon_base := 0.61 in
  let epsilon_sensitivity := 0.0001 in
  let epsilon :=
    Np.s_add epsilon_base
      (Np.s_mul epsilon_sensitivity (Np.sub_s temperature 273.15)) in
  let epsilon := Np.clip epsilon 0.5 0.8 in
  epsilon.

Definition energy_balance (temperature : A) (solar_multiplier : R) : A :=
  let S := SOLAR_CONSTANT * solar_multiplier in
  let alpha := albedo temperature in
  let epsilon := greenhouse_effect temperature in
  let energy_in := Np.div_s (Np.mul_s (Np.s_sub 1 alpha) S) 4 in
  let energy_out :=
    Np.mul (Np.mul_s epsilon STEFAN_BOLTZMANN) (Np.pow temperature 4) in
  let balance := Np.sub energy_in energy_out in
  balance.
End Model.

(** ** The equilibrium solver *)

(** The body of [for i in range(max_iterations)], by recursion on the number
    of iterations that remain. *)
Fixpoint solver_loop (remaining : nat) (temperature solar_multiplier tolerance : R)
  : R * bool :=
  match remaining with
  | O => (temperature, false)
  | S remaining' =>
      let dt := 0.1 in
      let balance := energy_balance temperature solar_multiplier in
      if Rlt_dec (Rabs balance) tolerance then (temperature, true)
      else
        let temperature := temperature + dt * balance in
        let temperature := clip temperature 150 400 in
        solver_loop remaining' temperature solar_multiplier tolerance
  end.

Definition find_equilibrium_temperature
  (initial_temp solar_multiplier : R) (max_iterations : Z) (tolerance : R)
  : R * bool :=
  let temperature := initial_temp in
  solver_loop (Z.to_nat max_iterations) temperature solar_multiplier tolerance.

(** The defaults of the signature. *)
Definition default_initial_temp : R := 288.
Definition default_solar_multiplier : R := 1.0.
Definition default_max_iterations : Z := 1000.
Definition default_tolerance : R := 0.01.

(** The same loop, also recording, in call order, every temperature at which
    [energy_balance] is evaluated. *)
Fixpoint solver_loop_calls (remaining : nat) (temperature solar_multiplier tolerance : R)
  : (R * bool) * list R :=
  match remaining with
  | O => ((temperature, false), [])
  | S remaining' =>
      let dt := 0.1 in
      let balance := energy_balance temperature solar_multiplier in
      if Rlt_dec (Rabs balance) tolerance then ((temperature, true), [temperature])
      else
        let temperature' := clip (temperature + dt * balance) 150 400 in
        let '(result, calls) :=
          solver_loop_calls remaining' temperature' solar_multiplier tolerance in
        (result, temperature :: calls)
  end.

Definition find_equilibrium_temperature_calls
  (initial_temp solar_multiplier : R) (max_iterations : Z) (tolerance : R)
  : (R * bool) * list R :=
  solver_loop_calls (Z.to_nat max_iterations) initial_temp solar_multiplier tolerance.

(** ** The solar sweep of [run_snowball_experiment] *)

(** [np.linspace(start, stop, num)]: [num] evenly spaced samples, both ends
    included. *)
Definition linspace (start stop : R) (num : nat) : list R :=
  let step := (stop - start) / INR (num - 1) in
  map (fun i => start + INR i * step) (seq 0 num).

(** An entry of [equilibrium_temps]: a temperature, or [np.nan]. *)
Definition entry : Type := option R.

(** One pass of the loop over [solar_multipliers]: the value appended to
    [equilibrium_temps]. *)
Definition sweep_entry (solar_mult : R) : entry :=
  let '(T_warm, converged_warm) :=
    find_equilibrium_temperature 288 solar_mult
      default_max_iterations default_tolerance in
  let '(T_cold, converged_cold) :=
    find_equilibrium_temperature 230 solar_mult
      default_max_iterations default_tolerance in
  if converged_warm then Some T_warm
  else if converged_cold then Some T_cold
  else None.

Definition sweep (solar_multipliers : list R) : list entry :=
  map sweep_entry solar_multipliers.

(** [t < 273.15] on one entry; a comparison with [np.nan] is false. *)
Definition below_freezing_entry (t : entry) : bool :=
  match t with
  | Some x => if Rlt_dec x 273.15 then true else false
  | None => false
  end.

(** [np.where(mask)[0]]: the positions of the true entries, in order. *)
Definition where_true (mask : list bool) : list nat :=
  map fst (filter snd (combine (seq 0 (length mask)) mask)).

(** The last block of [run_snowball_experiment]: the multiplier that is
    printed, if one is. *)
Definition critical_solar_of
  (solar_multipliers : list R) (equilibrium_temps : list entry) : option R :=
  let below_freezing := map below_freezing_entry equilibrium_temps in
  if existsb (fun b => b) below_freezing then
    match where_true below_freezing with
    | critical_idx :: _ => nth_error solar_multipliers critical_idx
    | [] => None
    end
  else None.

(** The experiment on any sequence of multipliers: the temperature series
    and the reported threshold. *)
Definition snowball_experiment (solar_multipliers : list R)
  : list entry * option R :=
  let equilibrium_temps := sweep solar_multipliers in
  (equilibrium_temps, critical_solar_of solar_multipliers equilibrium_temps).

Definition solar_multipliers : list R := linspace 0.85 1.05 20.

Definition run_snowball_experiment : list entry * option R :=
  snowball_experiment solar_multipliers.

(** ** The solver as the specification words it

    These definitions follow the algorithm of the specification, step by
    step, and are compared with [find_equilibrium_temperature] below. *)

Module Spec.
(** Step d: clamp [T] into [[150, 400]]. *)
Definition clamp (T : R) : R :=
  if Rlt_dec T 150 then 150 else if Rlt_dec 400 T then 400 else T.

(** Steps a, c and d, for a temperature that did not meet the tolerance. *)
Definition update (solar_multiplier T : R) : R :=
  let balance := energy_balance T solar_multiplier in
  clamp (T + 0.1 * balance).

(** The temperature after [k] repetitions, none of which returned. *)
Fixpoint iterate (solar_multiplier : R) (k : nat) (T : R) : R :=
  match k with
  | O => T
  | S k' => iterate solar_multiplier k' (update solar_multiplier T)
  end.

(** Step b's test. *)
Definition within_tolerance (solar_multiplier tolerance T : R) : Prop :=
  Rabs (energy_balance T solar_multiplier) < tolerance.

Inductive solver (initial_temp solar_multiplier : R) (max_iterations : Z)
  (tolerance : R) : R * bool -> Prop :=
| converged (k : nat) :
    (Z.of_nat k < max_iterations)%Z ->
    (forall j, (j < k)%nat ->
       ~ within_tolerance solar_multiplier tolerance
           (iterate solar_multiplier j initial_temp)) ->
    within_tolerance solar_multiplier tolerance
      (iterate solar_multiplier k initial_temp) ->
    solver initial_temp solar_multiplier max_iterations tolerance
      (iterate solar_multiplier k initial_temp, true)
| exhausted :
    (forall j, (Z.of_nat j < max_iterations)%Z ->
       ~ within_tolerance solar_multiplier tolerance
           (iterate solar_multiplier j initial_temp)) ->
    solver initial_temp solar_multiplier max_iterations tolerance
      (iterate solar_multiplier (Z.to_nat max_iterations) initial_temp, false).
End Spec.

(** ** [albedo] in binary64

    The expression of [albedo], evaluated on binary64 floats with the
    operators in the order Python applies them.  The literals stand for the
    nearest binary64 value, as in Python. *)

#[local] Set Warnings "-inexact-float".

Module Float64.
Local Open Scope float_scope.

(** [np.tanh], where its value does not depend on the implementation:
    [tanh(0) = 0] exactly, and from 22 on the true value is closer to 1 than
    [2^-62], so that the nearest binary64 value, 1, is returned (likewise -1
    below -22).  In between the last bits depend on the library, and no value
    is given. *)
Definition tanh (x : float) : option float :=
  if x =? 0 then Some x
  else if 22 <=? x then Some 1
  else if x <=? -22 then Some (-1)
  else None.

Definition albedo (temperature : float) : option float :=
  let T_freeze := 273.15 in
  let alpha_ice := 0.6 in
  let alpha_water := 0.3 in
  match tanh ((temperature - T_freeze) / 10) with
  | Some t => Some (alpha_water + (alpha_ice - alpha_water) * 0.5 * (1 - t))
  | None => None
  end.
End Float64.

(** ** Auxiliary functions for the analysis of the warm branch *)

(** The balance at present-day input with the clip of [greenhouse_effect]
    left out; the two agree wherever the clip is idle
    ([energy_balance_warm] below). *)
Definition warm_balance (T : R) : R :=
  (0.55 * 341.25 + 0.15 * 341.25 * tanh ((T - 273.15) / 10))
  - ((0.61 + 0.0001 * (T - 273.15)) * 5.67e-8) * T ^ 4.

(** Its derivative ([derivable_pt_lim_warm_balance] below). *)
Definition warm_slope (T : R) : R :=
  0.15 * 341.25 * (1 - tanh ((T - 273.15) / 10) ^ 2) / 10
  - (0.0001 * 5.67e-8 * T ^ 4
     + (0.61 + 0.0001 * (T - 273.15)) * 5.67e-8 * (4 * T ^ 3)).

(** ** The zero crossings of [plot_energy_balance_curve] *)

(** [np.sign]. *)
Definition sign (x : R) : R :=
  if Rlt_dec x 0 then -1 else if Rlt_dec 0 x then 1 else 0.

(** [np.diff]: [out[i] = a[i+1] - a[i]]. *)
Fixpoint diff (a : list R) : list R :=
  match a with
  | x :: (y :: _) as rest => (y - x) :: diff rest
  | _ => []
  end.

(** The truth value NumPy gives a float: zero is false. *)
Definition truthy (x : R) : bool :=
  if Req_dec_T x 0 then false else true.

(** [np.where(np.diff(np.sign(balance)))[0]]. *)
Definition zero_crossings (balance : list R) : list nat :=
  where_true (map truthy (diff (lift1 sign balance))).

(** The markers of [plot_energy_balance_curve]: the temperatures
    [temperatures[idx]] drawn as equilibria.  Drawing and saving the figure
    are left out. *)
Definition plot_energy_balance_curve (solar_multiplier : R) : list R :=
  let temperatures := linspace 200 320 200 in
  let balance := energy_balance temperatures solar_multiplier in
  let zero_crossings := zero_crossings balance in
  map (fun idx => nth idx temperatures 0) zero_crossings.

(** ** The summary line of [run_snowball_experiment] *)

(** [equilibrium_temps[10]], printed as "Current Earth (S = 1.00)". *)
Definition current_earth_entry (equilibrium_temps : list entry) : option entry :=
  nth_error equilibrium_temps 10.

(** ** [examples.py] *)

(** [temp < 273.15], the test behind the warning of example 2 and the
    FROZEN status of example 4. *)
Definition frozen (temp : R) : bool :=
  if Rlt_dec temp 273.15 then true else false.

(** Example 1: the pair that is printed. *)
Definition example_1_current_earth : R * bool :=
  find_equilibrium_temperature 288 1.0 default_max_iterations default_tolerance.

(** Example 2: the pair that is printed, and whether the warning is. *)
Definition example_2_reduced_solar : (R * bool) * bool :=
  let '(temp, converged) :=
    find_equilibrium_temperature 288 0.7 default_max_iterations default_tolerance in
  ((temp, converged), frozen temp).

(** Example 4: one row per solar value: the value, the temperature and
    whether the status is FROZEN.  The flag [converged] is not looked at. *)
Definition example_4_snowball_threshold : list (R * R * bool) :=
  let solar_values := [1.0; 0.95; 0.90; 0.85] in
  map (fun s =>
         let '(temp, converged) :=
           find_equilibrium_temperature 288 s
             default_max_iterations default_tolerance in
         (s, temp, frozen temp))
      solar_values.

(** * Properties *)

(** ** Unfolding the scalar instance *)

Lemma albedo_scalar (T : R) :
  albedo T = 0.3 + (0.6 - 0.3) * 0.5 * (1 - tanh ((T - 273.15) / 10)).
Proof. reflexivity. Qed.

Lemma greenhouse_effect_scalar (T : R) :
  greenhouse_effect T = clip (0.61 + 0.0001 * (T - 273.15)) 0.5 0.8.
Proof. reflexivity. Qed.

Lemma energy_balance_scalar (T m : R) :
  energy_balance T m =
  (1 - albedo T) * (SOLAR_CONSTANT * m) / 4
  - greenhouse_effect T * STEFAN_BOLTZMANN * T ^ 4.
Proof. reflexivity. Qed.

(** ** Hyperbolic tangent *)

Lemma cosh_pos (x : R) : 0 < cosh x.
Proof.
  unfold cosh. pose proof (exp_pos x). pose proof (exp_pos (- x)). lra.
Qed.

Lemma tanh_0 : tanh 0 = 0.
Proof. unfold tanh. rewrite sinh_0. unfold Rdiv. apply Rmult_0_l. Qed.

Lemma tanh_bounds (x : R) : -1 < tanh x < 1.
Proof.
  unfold tanh. pose proof (cosh_pos x) as Hc.
  assert (Hs : - cosh x < sinh x < cosh x).
  { unfold cosh, sinh in *. pose proof (exp_pos x). pose proof (exp_pos (- x)). lra. }
  split.
  - apply Rmult_lt_reg_r with (cosh x); [exact Hc|].
    unfold Rdiv. rewrite Rmult_assoc, Rinv_l by lra. lra.
  - apply Rmult_lt_reg_r with (cosh x); [exact Hc|].
    unfold Rdiv. rewrite Rmult_assoc, Rinv_l by lra. lra.
Qed.

(** ** Clipping *)

Lemma clip_range (x lo hi : R) : lo <= hi -> lo <= clip x lo hi <= hi.
Proof.
  intros Hle. unfold clip, Rmin, Rmax.
  repeat destruct Rle_dec; lra.
Qed.

Lemma clip_id (x lo hi : R) : lo <= x <= hi -> clip x lo hi = x.
Proof.
  intros Hx. unfold clip, Rmin, Rmax.
  repeat destruct Rle_dec; lra.
Qed.

Lemma clip_below (x lo hi : R) : lo <= hi -> x < lo -> clip x lo hi = lo.
Proof.
  intros Hle Hx. unfold clip, Rmin, Rmax.
  repeat destruct Rle_dec; lra.
Qed.

Lemma clip_above (x lo hi : R) : lo <= hi -> hi < x -> clip x lo hi = hi.
Proof.
  intros Hle Hx. unfold clip, Rmin, Rmax.
  repeat destruct Rle_dec; lra.
Qed.

Lemma clip_monotone (x y lo hi : R) : x <= y -> clip x lo hi <= clip y lo hi.
Proof.
  intros Hxy. unfold clip, Rmin, Rmax.
  repeat destruct Rle_dec; lra.
Qed.

Lemma clip_spec_clamp (T : R) : clip T 150 400 = Spec.clamp T.
Proof.
  unfold Spec.clamp.
  destruct (Rlt_dec T 150) as [Hlo | Hlo].
  - apply clip_below; lra.
  - destruct (Rlt_dec 400 T) as [Hhi | Hhi].
    + apply clip_above; lra.
    + apply clip_id; lra.
Qed.

(** ** Arrays *)

Lemma combine_map_same {X Y Z : Type} (f : X -> Y) (g : X -> Z) (xs : list X) :
  combine (map f xs) (map g xs) = map (fun x => (f x, g x)) xs.
Proof.
  induction xs as [| x xs IH]; simpl; [reflexivity | now rewrite IH].
Qed.

Lemma lift2_array_same (op : R -> R -> R) (f g : R -> R) (xs : list R) :
  lift2 op (map f xs) (map g xs) = map (fun x => op (f x) (g x)) xs.
Proof.
  simpl. rewrite combine_map_same, map_map. reflexivity.
Qed.

Lemma energy_balance_array (temperatures : list R) (m : R) :
  energy_balance temperatures m = map (fun T => energy_balance T m) temperatures.
Proof.
  unfold energy_balance at 1.
  unfold albedo, greenhouse_effect.
  unfold Np.sub, Np.mul, Np.mul_s, Np.div_s, Np.s_sub, Np.s_add, Np.s_mul,
    Np.sub_s, Np.pow, Np.tanh, Np.clip.
  cbn [lift1 Numeric_array].
  rewrite !map_map.
  rewrite (lift2_array_same Rmult), (lift2_array_same Rminus).
  reflexivity.
Qed.

(** ** The feedback functions and the energy balance *)

(** C4.  For every temperature [T] and solar multiplier [m],
    [energy_balance T m] is
    [(1 - albedo T) * (1365 * m) / 4 - greenhouse_effect T * 5.67e-8 * T^4];
    and [energy_balance] on an array of temperatures is, element by element,
    [energy_balance] on each temperature. *)
Theorem energy_balance_formula_and_vectorized :
  (forall T m : R,
      energy_balance T m =
      (1 - albedo T) * (1365 * m) / 4 - greenhouse_effect T * 5.67e-8 * T ^ 4)
  /\ (forall (temperatures : list R) (m : R),
         energy_balance temperatures m
         = map (fun T => energy_balance T m) temperatures).
Proof.
  split.
  - intros T m. reflexivity.
  - apply energy_balance_array.
Qed.

(** C6 as stated fails on binary64.  At 273.15 the expression evaluates to
    0.44999999999999996, which is not the float 0.45; and the bounds are
    attained, 0.3 at 500 K and 0.6 at 0 K, where [tanh] has saturated. *)
Lemma albedo_float64_midpoint_and_ends :
  Float64.albedo 273.15 = Some 0.44999999999999996%float
  /\ (0.44999999999999996 =? 0.45)%float = false
  /\ Float64.albedo 500 = Some 0.3%float
  /\ Float64.albedo 0 = Some 0.6%float.
Proof. repeat split; vm_compute; reflexivity. Qed.

(** C6, amended.  For every temperature [T], [albedo T] is
    [0.3 + (0.6 - 0.3) * 0.5 * (1 - tanh ((T - 273.15) / 10))]; at the
    midpoint [albedo 273.15] is 0.45 to within [1e-15], in exact arithmetic
    and as binary64 evaluates it; and [albedo T] always lies in the closed
    interval from 0.3 to 0.6. *)
Theorem albedo_formula_midpoint_closed_range :
  (forall T : R,
      albedo T = 0.3 + (0.6 - 0.3) * 0.5 * (1 - tanh ((T - 273.15) / 10)))
  /\ Rabs (albedo 273.15 - 0.45) <= 1e-15
  /\ (exists a : float,
         Float64.albedo 273.15 = Some a
         /\ (abs (a - 0.45) <? 1e-15)%float = true)
  /\ (forall T : R, 0.3 <= albedo T <= 0.6).
Proof.
  split; [| split; [| split]].
  - intros T. reflexivity.
  - rewrite albedo_scalar.
    replace ((273.15 - 273.15) / 10) with 0 by lra.
    rewrite tanh_0.
    replace (0.3 + (0.6 - 0.3) * 0.5 * (1 - 0) - 0.45) with 0 by lra.
    rewrite Rabs_R0. lra.
  - exists 0.44999999999999996%float. split; vm_compute; reflexivity.
  - intros T. rewrite albedo_scalar.
    pose proof (tanh_bounds ((T - 273.15) / 10)). lra.
Qed.

(** C7.  For every temperature [T], [greenhouse_effect T] is
    [0.61 + 0.0001 * (T - 273.15)] clipped into [[0.5, 0.8]]: 0.5 when the
    line is below 0.5, 0.8 when it is above 0.8, the line itself in between.
    Hence [greenhouse_effect] is non-decreasing and always within
    [[0.5, 0.8]]. *)
Theorem greenhouse_effect_clipped_monotone_bounded :
  (forall T : R,
      let epsilon := 0.61 + 0.0001 * (T - 273.15) in
      (epsilon < 0.5 -> greenhouse_effect T = 0.5)
      /\ (0.5 <= epsilon <= 0.8 -> greenhouse_effect T = epsilon)
      /\ (0.8 < epsilon -> greenhouse_effect T = 0.8))
  /\ (forall T1 T2 : R,
         T1 <= T2 -> greenhouse_effect T1 <= greenhouse_effect T2)
  /\ (forall T : R, 0.5 <= greenhouse_effect T <= 0.8).
Proof.
  split; [| split].
  - intros T epsilon. rewrite greenhouse_effect_scalar. fold epsilon.
    repeat split; intros He.
    + apply clip_below; lra.
    + apply clip_id; lra.
    + apply clip_above; lra.
  - intros T1 T2 H12. rewrite !greenhouse_effect_scalar.
    apply clip_monotone. lra.
  - intros T. rewrite greenhouse_effect_scalar. apply clip_range. lra.
Qed.

Lemma greenhouse_effect_clipped_monotone_bounded_witness :
  250 <= 300 /\ greenhouse_effect 250 <= greenhouse_effect 300.
Proof.
  split; [lra |].
  apply (proj1 (proj2 greenhouse_effect_clipped_monotone_bounded) 250 300). lra.
Defined.

Example greenhouse_effect_at_freezing : greenhouse_effect 273.15 = 0.61.
Proof. rewrite greenhouse_effect_scalar, clip_id; lra. Qed.

Example greenhouse_effect_saturates : greenhouse_effect 3000 = 0.8.
Proof. rewrite greenhouse_effect_scalar, clip_above; lra. Qed.

(** ** The solver loop *)

Lemma solver_loop_O (T m tol : R) : solver_loop 0 T m tol = (T, false).
Proof. reflexivity. Qed.

Lemma solver_loop_converged (n : nat) (T m tol : R) :
  Rabs (energy_balance T m) < tol ->
  solver_loop (S n) T m tol = (T, true).
Proof.
  intros Hb. simpl. destruct (Rlt_dec _ _) as [_ | Hn]; [reflexivity | contradiction].
Qed.

Lemma solver_loop_update (n : nat) (T m tol : R) :
  ~ Rabs (energy_balance T m) < tol ->
  solver_loop (S n) T m tol =
  solver_loop n (clip (T + 0.1 * energy_balance T m) 150 400) m tol.
Proof.
  intros Hb. simpl. destruct (Rlt_dec _ _) as [Hy | _]; [contradiction | reflexivity].
Qed.

Lemma solver_loop_calls_fst (n : nat) (T m tol : R) :
  fst (solver_loop_calls n T m tol) = solver_loop n T m tol.
Proof.
  revert T. induction n as [| n IH]; intros T; simpl; [reflexivity |].
  destruct (Rlt_dec _ _); [reflexivity |].
  specialize (IH (clip (T + 0.1 * energy_balance T m) 150 400)).
  destruct (solver_loop_calls n _ m tol) as [result calls]. exact IH.
Qed.

Lemma solver_loop_in_range (n : nat) (T m tol : R) :
  150 <= T <= 400 -> 150 <= fst (solver_loop n T m tol) <= 400.
Proof.
  revert T. induction n as [| n IH]; intros T HT; simpl; [exact HT |].
  destruct (Rlt_dec _ _); [exact HT |].
  apply IH. apply clip_range. lra.
Qed.


(** With a tolerance that is not positive the test never succeeds. *)
Lemma never_within_tolerance (x tol : R) : tol <= 0 -> ~ Rabs x < tol.
Proof. intros Htol Hx. pose proof (Rabs_pos x). lra. Qed.

Lemma solver_loop_calls_nonpositive_tolerance (n : nat) (T m tol : R) :
  tol <= 0 ->
  snd (fst (solver_loop_calls n T m tol)) = false
  /\ length (snd (solver_loop_calls n T m tol)) = n.
Proof.
  intros Htol. revert T. induction n as [| n IH]; intros T; simpl; [now split |].
  destruct (Rlt_dec _ _) as [Hy | _].
  - exfalso. exact (never_within_tolerance _ _ Htol Hy).
  - specialize (IH (clip (T + 0.1 * energy_balance T m) 150 400)).
    destruct (solver_loop_calls n _ m tol) as [result calls]. simpl in *.
    destruct IH as [IH1 IH2]. split; [exact IH1 | now rewrite IH2].
Qed.

(** A crude bound on the balance, enough to evaluate the test for a wide
    tolerance. *)
Lemma energy_balance_crude_bound (T : R) :
  0 <= T ->
  - (0.8 * (STEFAN_BOLTZMANN * T ^ 4)) < energy_balance T 1
  < 0.7 * SOLAR_CONSTANT / 4.
Proof.
  intros HT. rewrite energy_balance_scalar.
  assert (Ha : 0.3 < albedo T < 0.6).
  { rewrite albedo_scalar. pose proof (tanh_bounds ((T - 273.15) / 10)). lra. }
  assert (Hg : 0.5 <= greenhouse_effect T <= 0.8).
  { rewrite greenhouse_effect_scalar. apply clip_range. lra. }
  assert (H4 : 0 <= STEFAN_BOLTZMANN * T ^ 4).
  { apply Rmult_le_pos; [unfold STEFAN_BOLTZMANN; lra | apply pow_le; exact HT]. }
  rewrite (Rmult_assoc (greenhouse_effect T)).
  set (q := STEFAN_BOLTZMANN * T ^ 4) in *.
  assert (Hout : 0.5 * q <= greenhouse_effect T * q <= 0.8 * q).
  { split; apply Rmult_le_compat_r; lra. }
  unfold SOLAR_CONSTANT. lra.
Qed.

Lemma energy_balance_500 : Rabs (energy_balance 500 1) < 5000.
Proof.
  pose proof (energy_balance_crude_bound 500 ltac:(lra)) as Hb.
  unfold STEFAN_BOLTZMANN, SOLAR_CONSTANT in Hb.
  apply Rabs_def1; lra.
Qed.

(** ** The loop against the specification's algorithm *)

Lemma spec_iterate_S (m : R) (k : nat) (T : R) :
  Spec.iterate m (S k) T = Spec.iterate m k (clip (T + 0.1 * energy_balance T m) 150 400).
Proof. simpl. unfold Spec.update. now rewrite clip_spec_clamp. Qed.

(** What the loop returns after [n] iterations at most, in terms of the
    specification's iterates. *)
Lemma solver_loop_first_within (n : nat) (m tol : R) : forall T : R,
  (exists k : nat,
      (k < n)%nat
      /\ (forall j, (j < k)%nat -> ~ Spec.within_tolerance m tol (Spec.iterate m j T))
      /\ Spec.within_tolerance m tol (Spec.iterate m k T)
      /\ solver_loop n T m tol = (Spec.iterate m k T, true))
  \/ ((forall j, (j < n)%nat -> ~ Spec.within_tolerance m tol (Spec.iterate m j T))
      /\ solver_loop n T m tol = (Spec.iterate m n T, false)).
Proof.
  induction n as [| n IH]; intros T.
  - right. split; [intros j Hj; lia | reflexivity].
  - destruct (Rlt_dec (Rabs (energy_balance T m)) tol) as [Hy | Hn].
    + left. exists 0%nat. repeat split.
      * lia.
      * intros j Hj. lia.
      * exact Hy.
      * now apply solver_loop_converged.
    + rewrite (solver_loop_update n T m tol Hn).
      destruct (IH (clip (T + 0.1 * energy_balance T m) 150 400))
        as [(k & Hk & Hbefore & Hat & Hres) | (Hnone & Hres)].
      * left. exists (S k). rewrite spec_iterate_S. repeat split; try assumption.
        -- lia.
        -- intros [| j] Hj; [exact Hn |].
           rewrite spec_iterate_S. apply Hbefore. lia.
      * right. rewrite spec_iterate_S. split; [| exact Hres].
        intros [| j] Hj; [exact Hn |].
        rewrite spec_iterate_S. apply Hnone. lia.
Qed.

(** With a tolerance that is not positive the loop runs to the end. *)
Lemma solver_loop_nonpositive_tolerance (n : nat) (T m tol : R) :
  tol <= 0 -> solver_loop n T m tol = (Spec.iterate m n T, false).
Proof.
  intros Htol.
  destruct (solver_loop_first_within n m tol T)
    as [(k & _ & _ & Hat & _) | (_ & Hres)]; [| exact Hres].
  exfalso. exact (never_within_tolerance _ _ Htol Hat).
Qed.

Lemma find_equilibrium_temperature_meets_spec (init m : R) (max : Z) (tol : R) :
  Spec.solver init m max tol (find_equilibrium_temperature init m max tol).
Proof.
  unfold find_equilibrium_temperature.
  destruct (solver_loop_first_within (Z.to_nat max) m tol init)
    as [(k & Hk & Hbefore & Hat & Hres) | (Hnone & Hres)]; rewrite Hres.
  - apply Spec.converged; [lia | exact Hbefore | exact Hat].
  - apply Spec.exhausted. intros j Hj. apply Hnone. lia.
Qed.

Lemma spec_solver_functional (init m : R) (max : Z) (tol : R) (r1 r2 : R * bool) :
  Spec.solver init m max tol r1 -> Spec.solver init m max tol r2 -> r1 = r2.
Proof.
  intros [k1 Hk1 Hb1 Ha1 | Hn1] [k2 Hk2 Hb2 Ha2 | Hn2].
  - destruct (Nat.lt_trichotomy k1 k2) as [Hlt | [Heq | Hgt]].
    + exfalso. exact (Hb2 k1 Hlt Ha1).
    + now subst.
    + exfalso. exact (Hb1 k2 Hgt Ha2).
  - exfalso. exact (Hn2 k1 Hk1 Ha1).
  - exfalso. exact (Hn1 k2 Hk2 Ha2).
  - reflexivity.
Qed.

(** ** Results on [find_equilibrium_temperature] *)

Lemma find_equilibrium_temperature_no_iterations (init m : R) (max : Z) (tol : R) :
  (max <= 0)%Z ->
  find_equilibrium_temperature_calls init m max tol = ((init, false), []).
Proof.
  intros Hmax. unfold find_equilibrium_temperature_calls.
  replace (Z.to_nat max) with 0%nat by lia. reflexivity.
Qed.

Lemma find_equilibrium_temperature_calls_fst (init m : R) (max : Z) (tol : R) :
  fst (find_equilibrium_temperature_calls init m max tol)
  = find_equilibrium_temperature init m max tol.
Proof. apply solver_loop_calls_fst. Qed.

Lemma find_equilibrium_temperature_first_test (init m : R) (max : Z) (tol : R) :
  (0 < max)%Z ->
  Rabs (energy_balance init m) < tol ->
  find_equilibrium_temperature init m max tol = (init, true).
Proof.
  intros Hmax Hb. unfold find_equilibrium_temperature.
  destruct (Z.to_nat max) as [| n] eqn:Hn; [lia |].
  now apply solver_loop_converged.
Qed.




(** C2.  [find_equilibrium_temperature] is exactly the loop of the
    specification: it returns [(T, true)] for the first iterate [T], among
    the first [max_iterations], whose balance is within the tolerance, and
    [(T, false)] with the last iterate when there is none; an iterate is
    followed by [T + 0.1 * balance] clamped into [[150, 400]]. *)
Theorem find_equilibrium_temperature_refines_spec
  (init m : R) (max : Z) (tol : R) (r : R * bool) :
  find_equilibrium_temperature init m max tol = r
  <-> Spec.solver init m max tol r.
Proof.
  split.
  - intros <-. apply find_equilibrium_temperature_meets_spec.
  - intros Hr. eapply spec_solver_functional; [| exact Hr].
    apply find_equilibrium_temperature_meets_spec.
Qed.

(** C3 as stated fails.  With [tolerance = 0] the call does not fail fast:
    it evaluates the balance in all 1000 iterations and returns a pair whose
    flag is [false]. *)
Lemma zero_tolerance_iterates_and_returns :
  exists T : R,
    find_equilibrium_temperature 288 1 1000 0 = (T, false)
    /\ length (snd (find_equilibrium_temperature_calls 288 1 1000 0)) = 1000%nat.
Proof.
  exists (Spec.iterate 1 (Z.to_nat 1000) 288). split.
  - apply solver_loop_nonpositive_tolerance. lra.
  - pose proof (solver_loop_calls_nonpositive_tolerance (Z.to_nat 1000) 288 1 0
                  ltac:(lra)) as [_ Hlen].
    unfold find_equilibrium_temperature_calls. rewrite Hlen. reflexivity.
Qed.

(** C3, amended.  [find_equilibrium_temperature] has no check of
    [max_iterations] or [tolerance].  When [tolerance] is zero or negative it
    does not fail fast: the test is never met, the balance is evaluated once
    in each of the [max_iterations] iterations (none when
    [max_iterations <= 0]), and what is returned is the temperature reached
    after these updates, with the flag [false]. *)
Theorem nonpositive_tolerance_exhausts_budget (init m : R) (max : Z) (tol : R) :
  tol <= 0 ->
  find_equilibrium_temperature init m max tol
  = (Spec.iterate m (Z.to_nat max) init, false)
  /\ length (snd (find_equilibrium_temperature_calls init m max tol))
     = Z.to_nat max.
Proof.
  intros Htol. split.
  - now apply solver_loop_nonpositive_tolerance.
  - now apply solver_loop_calls_nonpositive_tolerance.
Qed.

Lemma nonpositive_tolerance_exhausts_budget_witness :
  -1 <= 0
  /\ find_equilibrium_temperature 288 1 1000 (-1)
     = (Spec.iterate 1 (Z.to_nat 1000) 288, false)
  /\ length (snd (find_equilibrium_temperature_calls 288 1 1000 (-1)))
     = Z.to_nat 1000.
Proof.
  split; [lra |].
  apply (nonpositive_tolerance_exhausts_budget 288 1 1000 (-1)). lra.
Defined.

(** C10.  [initial_temp] is not clamped before the first test.  When
    [max_iterations <= 0] the result is [(initial_temp, false)] and
    [energy_balance] is not evaluated; when the loop is entered and the first
    balance is within the tolerance the result is [(initial_temp, true)].
    Neither case asks [initial_temp] to be within [[150, 400]]. *)
Theorem initial_temperature_returned_unclamped
  (init m : R) (max : Z) (tol : R) :
  ((max <= 0)%Z ->
     find_equilibrium_temperature init m max tol = (init, false)
     /\ snd (find_equilibrium_temperature_calls init m max tol) = [])
  /\ ((0 < max)%Z ->
      Rabs (energy_balance init m) < tol ->
      find_equilibrium_temperature init m max tol = (init, true)).
Proof.
  split.
  - intros Hmax. rewrite <- find_equilibrium_temperature_calls_fst.
    now rewrite find_equilibrium_temperature_no_iterations.
  - apply find_equilibrium_temperature_first_test.
Qed.

Lemma initial_temperature_returned_unclamped_witness :
  (find_equilibrium_temperature 500 1 0 0.01 = (500, false)
   /\ snd (find_equilibrium_temperature_calls 500 1 0 0.01) = [])
  /\ find_equilibrium_temperature 500 1 1000 5000 = (500, true).
Proof.
  split.
  - apply (proj1 (initial_temperature_returned_unclamped 500 1 0 0.01)). lia.
  - apply (proj2 (initial_temperature_returned_unclamped 500 1 1000 5000)).
    + lia.
    + exact energy_balance_500.
Defined.

(** ** The sweep and its threshold *)

Lemma sweep_entry_cases (m : R) :
  sweep_entry m =
  let warm := find_equilibrium_temperature 288 m 1000 0.01 in
  let cold := find_equilibrium_temperature 230 m 1000 0.01 in
  if snd warm then Some (fst warm)
  else if snd cold then Some (fst cold)
  else None.
Proof.
  unfold sweep_entry, default_max_iterations, default_tolerance.
  destruct (find_equilibrium_temperature 288 m 1000 0.01) as [Tw cw].
  destruct (find_equilibrium_temperature 230 m 1000 0.01) as [Tc cc].
  reflexivity.
Qed.

Lemma below_freezing_entry_true (t : entry) :
  below_freezing_entry t = true <-> exists x : R, t = Some x /\ x < 273.15.
Proof.
  destruct t as [x |]; simpl.
  - destruct (Rlt_dec x 273.15) as [Hx | Hx]; split.
    + intros _. now exists x.
    + reflexivity.
    + discriminate.
    + intros (y & Hy & Hlt). injection Hy as <-. contradiction.
  - split; [discriminate | intros (y & Hy & _); discriminate].
Qed.

(** The head of [np.where(mask)[0]], with positions counted from [start]. *)
Lemma where_true_head (mask : list bool) : forall start : nat,
  match map fst (filter snd (combine (seq start (length mask)) mask)) with
  | idx :: _ =>
      (start <= idx)%nat
      /\ nth_error mask (idx - start) = Some true
      /\ (forall j, (j < idx - start)%nat -> nth_error mask j = Some false)
  | [] => forall j b, nth_error mask j = Some b -> b = false
  end.
Proof.
  induction mask as [| b mask IH]; intros start; simpl.
  - intros [| j] b' Hj; discriminate.
  - destruct b; simpl.
    + split; [lia |]. rewrite Nat.sub_diag. split; [reflexivity |].
      intros j Hj. lia.
    + specialize (IH (S start)).
      destruct (map fst (filter snd (combine (seq (S start) (length mask)) mask)))
        as [| idx rest].
      * intros [| j] b' Hj; simpl in Hj; [now injection Hj as <- | eauto].
      * destruct IH as (Hle & Hat & Hbefore).
        split; [lia |].
        replace (idx - start)%nat with (S (idx - S start)) by lia.
        split; [exact Hat |].
        intros [| j] Hj; [reflexivity |]. simpl. apply Hbefore. lia.
Qed.

Lemma existsb_id_false (mask : list bool) :
  existsb (fun b => b) mask = false ->
  forall j b, nth_error mask j = Some b -> b = false.
Proof.
  induction mask as [| b0 mask IH]; simpl; intros He [| j] b Hj; try discriminate.
  - injection Hj as <-. now destruct b0.
  - apply (IH ltac:(now destruct b0) j b Hj).
Qed.

Lemma critical_solar_of_some (ms : list R) (temps : list entry) (mc : R) :
  critical_solar_of ms temps = Some mc ->
  exists (i : nat) (t : R),
    nth_error ms i = Some mc
    /\ nth_error temps i = Some (Some t)
    /\ t < 273.15
    /\ (forall j tj, nth_error temps j = Some (Some tj) -> tj < 273.15 -> (i <= j)%nat).
Proof.
  unfold critical_solar_of.
  destruct (existsb _ _); [| discriminate].
  pose proof (where_true_head (map below_freezing_entry temps) 0) as Hw.
  unfold where_true.
  destruct (map fst _) as [| idx rest]; [discriminate |].
  destruct Hw as (_ & Hat & Hbefore). rewrite Nat.sub_0_r in *.
  intros Hmc. rewrite nth_error_map in Hat.
  destruct (nth_error temps idx) as [e |] eqn:He; [| discriminate].
  simpl in Hat. injection Hat as Hat.
  apply below_freezing_entry_true in Hat. destruct Hat as (t & -> & Ht).
  exists idx, t. repeat split; try assumption.
  intros j tj Hj Htj.
  destruct (Nat.le_gt_cases idx j) as [Hle | Hgt]; [exact Hle |].
  specialize (Hbefore j Hgt). rewrite nth_error_map, Hj in Hbefore.
  simpl in Hbefore. destruct (Rlt_dec tj 273.15); [discriminate | contradiction].
Qed.

Lemma critical_solar_of_none (ms : list R) (temps : list entry) :
  length ms = length temps ->
  critical_solar_of ms temps = None ->
  forall j tj, nth_error temps j = Some (Some tj) -> ~ tj < 273.15.
Proof.
  unfold critical_solar_of. intros Hlen Hc j tj Hj Htj.
  assert (Hb : nth_error (map below_freezing_entry temps) j = Some true).
  { rewrite nth_error_map, Hj. simpl. now destruct (Rlt_dec tj 273.15). }
  destruct (existsb _ _) eqn:He.
  - pose proof (where_true_head (map below_freezing_entry temps) 0) as Hw.
    unfold where_true in Hc.
    destruct (map fst _) as [| idx rest].
    + specialize (Hw j true Hb). discriminate.
    + destruct Hw as (_ & Hat & _). rewrite Nat.sub_0_r in Hat.
      assert (Hidx : (idx < length ms)%nat).
      { rewrite Hlen, <- (length_map below_freezing_entry).
        apply nth_error_Some. now rewrite Hat. }
      apply nth_error_Some in Hidx. contradiction.
  - pose proof (existsb_id_false _ He j true Hb). discriminate.
Qed.

(** [np.linspace] rises with the position when [start < stop]. *)
Lemma linspace_nth (start stop : R) (num i : nat) (m : R) :
  nth_error (linspace start stop num) i = Some m ->
  (i < num)%nat /\ m = start + INR i * ((stop - start) / INR (num - 1)).
Proof.
  unfold linspace. intros Hi.
  assert (Hlt : (i < num)%nat).
  { assert (Hsome : nth_error
              (map (fun i => start + INR i * ((stop - start) / INR (num - 1)))
                 (seq 0 num)) i <> None) by now rewrite Hi.
    apply nth_error_Some in Hsome. now rewrite length_map, length_seq in Hsome. }
  split; [exact Hlt |].
  rewrite nth_error_map in Hi.
  rewrite (nth_error_nth' _ 0%nat) in Hi by now rewrite length_seq.
  rewrite seq_nth in Hi by exact Hlt. simpl in Hi. now injection Hi as <-.
Qed.

Lemma linspace_increasing (start stop : R) (num i j : nat) (mi mj : R) :
  start < stop -> (2 <= num)%nat ->
  nth_error (linspace start stop num) i = Some mi ->
  nth_error (linspace start stop num) j = Some mj ->
  (i <= j)%nat -> mi <= mj.
Proof.
  intros Hlt Hnum Hi Hj Hij.
  apply linspace_nth in Hi. apply linspace_nth in Hj.
  destruct Hi as [_ ->]. destruct Hj as [_ ->].
  assert (Hstep : 0 < (stop - start) / INR (num - 1)).
  { apply Rdiv_lt_0_compat; [lra |]. apply lt_0_INR. lia. }
  apply le_INR in Hij. nra.
Qed.

(** C8.  For each multiplier of the sweep the solver is run from 288 K and
    from 230 K; the entry recorded is the warm temperature if the warm run
    converged, else the cold temperature if the cold run converged, else the
    missing value.  A threshold that is reported is a multiplier of the
    sweep whose entry is below 273.15 K, at the first position with such an
    entry, and so is the lowest multiplier with such an entry; none is
    reported only when no entry is below 273.15 K. *)
Theorem run_snowball_experiment_sweep_and_threshold :
  (forall (i : nat) (m : R),
      nth_error solar_multipliers i = Some m ->
      let warm := find_equilibrium_temperature 288 m 1000 0.01 in
      let cold := find_equilibrium_temperature 230 m 1000 0.01 in
      nth_error (fst run_snowball_experiment) i
      = Some (if snd warm then Some (fst warm)
              else if snd cold then Some (fst cold)
              else None))
  /\ (forall mc : R,
         snd run_snowball_experiment = Some mc ->
         exists (i : nat) (t : R),
           nth_error solar_multipliers i = Some mc
           /\ nth_error (fst run_snowball_experiment) i = Some (Some t)
           /\ t < 273.15
           /\ (forall (j : nat) (mj tj : R),
                  nth_error solar_multipliers j = Some mj ->
                  nth_error (fst run_snowball_experiment) j = Some (Some tj) ->
                  tj < 273.15 ->
                  (i <= j)%nat /\ mc <= mj))
  /\ (snd run_snowball_experiment = None ->
      forall (j : nat) (tj : R),
        nth_error (fst run_snowball_experiment) j = Some (Some tj) ->
        ~ tj < 273.15).
Proof.
  unfold run_snowball_experiment, snowball_experiment. cbn [fst snd].
  split; [| split].
  - intros i m Hi. unfold sweep. rewrite nth_error_map, Hi. simpl.
    now rewrite sweep_entry_cases.
  - intros mc Hmc.
    destruct (critical_solar_of_some _ _ _ Hmc) as (i & t & Hi & Hti & Ht & Hfirst).
    exists i, t. repeat split; try assumption.
    + now apply (Hfirst j tj).
    + assert (Hij : (i <= j)%nat) by now apply (Hfirst j tj).
      apply (linspace_increasing 0.85 1.05 20 i j); try assumption; [lra | lia].
  - apply critical_solar_of_none. unfold sweep. now rewrite length_map.
Qed.

Lemma run_snowball_experiment_sweep_and_threshold_witness :
  let m := 0.85 + INR 0 * ((1.05 - 0.85) / INR (20 - 1)) in
  nth_error solar_multipliers 0 = Some m
  /\ nth_error (fst run_snowball_experiment) 0
     = Some (if snd (find_equilibrium_temperature 288 m 1000 0.01)
             then Some (fst (find_equilibrium_temperature 288 m 1000 0.01))
             else if snd (find_equilibrium_temperature 230 m 1000 0.01)
             then Some (fst (find_equilibrium_temperature 230 m 1000 0.01))
             else None).
Proof.
  intros m. split; [reflexivity |].
  apply (proj1 run_snowball_experiment_sweep_and_threshold 0%nat m).
  reflexivity.
Defined.

(** The threshold scan on a small series: the missing value is skipped and
    the first entry below freezing decides. *)
Example critical_solar_of_skips_missing :
  critical_solar_of [0.9; 0.95; 1] [None; Some 260; Some 288] = Some 0.95.
Proof.
  unfold critical_solar_of, where_true. cbn [map below_freezing_entry].
  destruct (Rlt_dec 260 273.15) as [_ | Hn]; [| lra].
  destruct (Rlt_dec 288 273.15) as [Hy | _]; [lra |].
  reflexivity.
Qed.

Example critical_solar_of_all_warm :
  critical_solar_of [0.9; 1] [Some 280; Some 288] = None.
Proof.
  unfold critical_solar_of, where_true. cbn [map below_freezing_entry].
  destruct (Rlt_dec 280 273.15) as [Hy | _]; [lra |].
  destruct (Rlt_dec 288 273.15) as [Hy | _]; [lra |].
  reflexivity.
Qed.

(** ** The warm equilibrium at present-day input *)

Lemma cosh2_minus_sinh2 (x : R) : cosh x * cosh x - sinh x * sinh x = 1.
Proof.
  unfold cosh, sinh.
  assert (He : exp x * exp (- x) = 1).
  { rewrite <- exp_plus. replace (x + - x) with 0 by lra. apply exp_0. }
  nra.
Qed.

Lemma derivable_pt_lim_tanh (x : R) :
  derivable_pt_lim tanh x (1 - tanh x ^ 2).
Proof.
  pose proof (cosh_pos x) as Hc.
  replace (1 - tanh x ^ 2)
    with ((cosh x * cosh x - sinh x * sinh x) / Rsqr (cosh x)).
  - change tanh with (sinh / cosh)%F.
    apply derivable_pt_lim_div.
    + apply derivable_pt_lim_sinh.
    + apply derivable_pt_lim_cosh.
    + lra.
  - unfold tanh, Rsqr. field. lra.
Qed.

(** [tanh] through the exponential. *)
Lemma tanh_exp (x : R) : tanh x = 1 - 2 / (exp (2 * x) + 1).
Proof.
  unfold tanh, sinh, cosh.
  assert (He : exp (2 * x) = exp x * exp x).
  { rewrite <- exp_plus. f_equal. lra. }
  assert (Hi : exp (- x) = / exp x).
  { apply exp_Ropp. }
  pose proof (exp_pos x) as Hp.
  rewrite He, Hi. field. split; nra.
Qed.

Lemma tanh_increasing (x y : R) : x <= y -> tanh x <= tanh y.
Proof.
  intros Hxy. rewrite !tanh_exp.
  pose proof (exp_pos (2 * x)) as Hx. pose proof (exp_pos (2 * y)) as Hy.
  assert (He : exp (2 * x) <= exp (2 * y)).
  { destruct (Req_dec x y) as [-> | Hne]; [lra |].
    left. apply exp_increasing. lra. }
  assert (Hinv : / (exp (2 * y) + 1) <= / (exp (2 * x) + 1)).
  { apply Rinv_le_contravar; lra. }
  unfold Rdiv. lra.
Qed.

Lemma exp_pow_nat (j : nat) (y : R) : exp y ^ j = exp (INR j * y).
Proof.
  induction j as [| j IH].
  - simpl. rewrite Rmult_0_l. now rewrite exp_0.
  - rewrite S_INR. simpl pow. rewrite IH, <- exp_plus. f_equal. lra.
Qed.

(** A lower bound on the exponential: [(1 + x/n)^n <= exp x]. *)
Lemma exp_ge_pow (x : R) (n : nat) :
  (0 < n)%nat -> 0 <= 1 + x / INR n -> (1 + x / INR n) ^ n <= exp x.
Proof.
  intros Hn Hpos.
  assert (Hn' : 0 < INR n) by now apply lt_0_INR.
  replace (exp x) with (exp (x / INR n) ^ n).
  - apply pow_incr. split; [exact Hpos | apply exp_ineq1_le].
  - rewrite exp_pow_nat. f_equal. field. lra.
Qed.

Lemma exp_237 : 9 <= exp 2.37.
Proof.
  pose proof (exp_ge_pow 2.37 16 ltac:(lia)) as H.
  rewrite INR_IZR_INZ in H. change (Z.of_nat 16) with 16%Z in H.
  assert (Hb : 9 <= (1 + 2.37 / 16) ^ 16) by lra.
  lra.
Qed.


Lemma tanh_1185 : 0.8 <= tanh 1.185.
Proof.
  rewrite tanh_exp. replace (2 * 1.185) with 2.37 by lra.
  pose proof exp_237 as He.
  assert (Hinv : / (exp 2.37 + 1) <= / 10).
  { apply Rinv_le_contravar; lra. }
  unfold Rdiv. lra.
Qed.

Lemma tanh_1485 : tanh 1.485 <= 0.93.
Proof.
  rewrite tanh_exp. replace (2 * 1.485) with 2.97 by lra.
  assert (He : exp 2.97 <= 27).
  { apply Rle_trans with (exp 1 ^ 3).
    - rewrite exp_pow_nat. simpl INR.
      left. apply exp_increasing. lra.
    - pose proof exp_le_3 as H3. pose proof (exp_pos 1) as Hp.
      replace 27 with (3 ^ 3) by lra.
      apply pow_incr. lra. }
  pose proof (exp_pos 2.97) as Hp.
  assert (Hinv : / 28 <= / (exp 2.97 + 1)).
  { apply Rinv_le_contravar; lra. }
  unfold Rdiv. lra.
Qed.

Lemma energy_balance_warm (T : R) :
  0 <= T <= 2000 -> energy_balance T 1 = warm_balance T.
Proof.
  intros HT. rewrite energy_balance_scalar, albedo_scalar, greenhouse_effect_scalar.
  rewrite clip_id by lra.
  unfold warm_balance, SOLAR_CONSTANT, STEFAN_BOLTZMANN. lra.
Qed.

Lemma derivable_pt_lim_warm_balance (T : R) :
  derivable_pt_lim warm_balance T (warm_slope T).
Proof.
  enough (exists l, derivable_pt_lim warm_balance T l /\ l = warm_slope T)
    as (l & Hl & <-) by exact Hl.
  eexists. split.
  - unfold warm_balance.
    apply derivable_pt_lim_minus.
    + apply derivable_pt_lim_plus.
      * apply derivable_pt_lim_const.
      * apply derivable_pt_lim_scal.
        apply (derivable_pt_lim_comp (fun T => (T - 273.15) / 10) tanh).
        -- apply derivable_pt_lim_div_scal.
           apply derivable_pt_lim_minus.
           ++ apply derivable_pt_lim_id.
           ++ apply derivable_pt_lim_const.
        -- apply derivable_pt_lim_tanh.
    + apply derivable_pt_lim_mult.
      * apply derivable_pt_lim_scal_right.
        apply derivable_pt_lim_plus.
        -- apply derivable_pt_lim_const.
        -- apply derivable_pt_lim_scal.
           apply derivable_pt_lim_minus.
           ++ apply derivable_pt_lim_id.
           ++ apply derivable_pt_lim_const.
      * apply derivable_pt_lim_pow.
  - unfold warm_slope. simpl INR. simpl pred. lra.
Qed.

Lemma warm_slope_upper (T : R) : 285 <= T <= 400 -> warm_slope T <= -1.4.
Proof.
  intros HT. unfold warm_slope.
  set (t := tanh ((T - 273.15) / 10)).
  assert (Ht : 0.8 <= t < 1).
  { split; [| apply tanh_bounds].
    apply Rle_trans with (tanh 1.185); [apply tanh_1185 |].
    apply tanh_increasing. lra. }
  assert (Ht2 : 0.64 <= t ^ 2) by nra.
  assert (H3 : 285 ^ 3 <= T ^ 3) by (apply pow_incr; lra).
  assert (H4 : 285 ^ 4 <= T ^ 4) by (apply pow_incr; lra).
  assert (He : 0.611185 * 285 ^ 3 <= (0.61 + 0.0001 * (T - 273.15)) * T ^ 3).
  { apply Rmult_le_compat; lra. }
  lra.
Qed.

Lemma warm_slope_lower (T : R) : 285 <= T <= 288 -> -3.4 <= warm_slope T.
Proof.
  intros HT. unfold warm_slope.
  set (t := tanh ((T - 273.15) / 10)).
  assert (Ht : -1 < t < 1) by apply tanh_bounds.
  assert (Ht2 : t ^ 2 <= 1) by nra.
  assert (H3 : T ^ 3 <= 288 ^ 3) by (apply pow_incr; lra).
  assert (H4 : T ^ 4 <= 288 ^ 4) by (apply pow_incr; lra).
  assert (H3' : 0 <= T ^ 3) by (apply pow_le; lra).
  assert (He : (0.61 + 0.0001 * (T - 273.15)) * T ^ 3 <= 0.611485 * 288 ^ 3).
  { apply Rmult_le_compat; lra. }
  lra.
Qed.

Lemma warm_balance_285 : 0 < warm_balance 285.
Proof.
  unfold warm_balance. replace ((285 - 273.15) / 10) with 1.185 by lra.
  pose proof tanh_1185. lra.
Qed.

Lemma warm_balance_288 : warm_balance 288 < 0.
Proof.
  unfold warm_balance. replace ((288 - 273.15) / 10) with 1.485 by lra.
  pose proof tanh_1485. lra.
Qed.

Lemma warm_balance_decreasing (a b : R) :
  285 <= a -> a < b -> b <= 400 ->
  warm_balance b - warm_balance a <= -1.4 * (b - a).
Proof.
  intros Ha Hab Hb.
  destruct (MVT_cor2 warm_balance warm_slope a b Hab
              (fun c _ => derivable_pt_lim_warm_balance c)) as (c & Hc & Hin).
  rewrite Hc. pose proof (warm_slope_upper c ltac:(lra)). nra.
Qed.

Lemma warm_balance_not_steep (a b : R) :
  285 <= a -> a < b -> b <= 288 ->
  -3.4 * (b - a) <= warm_balance b - warm_balance a.
Proof.
  intros Ha Hab Hb.
  destruct (MVT_cor2 warm_balance warm_slope a b Hab
              (fun c _ => derivable_pt_lim_warm_balance c)) as (c & Hc & Hin).
  rewrite Hc. pose proof (warm_slope_lower c ltac:(lra)). nra.
Qed.

Lemma warm_equilibrium_exists :
  exists T_eq : R, 285 < T_eq < 288 /\ warm_balance T_eq = 0.
Proof.
  destruct (IVT_interv (fun T => - warm_balance T) 285 288) as (z & Hz & Hz0).
  - intros a _. apply derivable_continuous_pt.
    exists (- warm_slope a).
    apply (derivable_pt_lim_opp warm_balance a (warm_slope a)).
    apply derivable_pt_lim_warm_balance.
  - lra.
  - pose proof warm_balance_285. lra.
  - pose proof warm_balance_288. lra.
  - exists z. assert (H0 : warm_balance z = 0) by lra.
    split; [| exact H0].
    pose proof warm_balance_285. pose proof warm_balance_288.
    destruct Hz as [[Hlo | <-] [Hhi | ->]]; lra.
Qed.

Section WarmEquilibrium.
Variable T_eq : R.
Hypothesis T_eq_region : 285 < T_eq < 288.
Hypothesis T_eq_balance : warm_balance T_eq = 0.

Lemma balance_above_equilibrium (T : R) :
  T_eq < T -> T <= 400 -> energy_balance T 1 <= -1.4 * (T - T_eq).
Proof.
  intros Hlo Hhi. rewrite energy_balance_warm by lra.
  pose proof (warm_balance_decreasing T_eq T ltac:(lra) Hlo Hhi). lra.
Qed.

Lemma balance_below_equilibrium (T : R) :
  285 <= T -> T < T_eq -> 1.4 * (T_eq - T) <= energy_balance T 1.
Proof.
  intros Hlo Hhi. rewrite energy_balance_warm by lra.
  pose proof (warm_balance_decreasing T T_eq Hlo Hhi ltac:(lra)). lra.
Qed.

Lemma balance_near_equilibrium (T : R) :
  T_eq < T -> T <= 288 -> -3.4 * (T - T_eq) <= energy_balance T 1.
Proof.
  intros Hlo Hhi. rewrite energy_balance_warm by lra.
  pose proof (warm_balance_not_steep T_eq T ltac:(lra) Hlo Hhi). lra.
Qed.

Lemma balance_at_equilibrium : energy_balance T_eq 1 = 0.
Proof. rewrite energy_balance_warm by lra. exact T_eq_balance. Qed.

(** From [T_eq <= T <= 288] the iteration approaches [T_eq] from above,
    never crossing it, and the gap shrinks by the factor 0.86 at least at
    each update. *)
Lemma warm_loop_converges (n : nat) : forall (k : nat) (T : R),
  T_eq <= T <= 288 ->
  T - T_eq <= 3 * 0.86 ^ k ->
  (k <= 64)%nat -> (64 < k + n)%nat ->
  exists T' : R,
    solver_loop n T 1 0.01 = (T', true) /\ T_eq <= T' /\ T' - T_eq < 1.
Proof.
  induction n as [| n IH]; intros k T HT Hgap Hk Hkn; [lia |].
  destruct (Rlt_dec (Rabs (energy_balance T 1)) 0.01) as [Hy | Hno].
  - exists T. rewrite solver_loop_converged by exact Hy.
    split; [reflexivity |]. split; [lra |].
    destruct (Req_dec T T_eq) as [-> | Hne]; [lra |].
    pose proof (balance_above_equilibrium T ltac:(lra) ltac:(lra)) as Hb.
    apply Rabs_def2 in Hy. lra.
  - assert (Hne : T_eq < T).
    { destruct (Req_dec T T_eq) as [-> | Hne]; [| lra].
      exfalso. apply Hno. rewrite balance_at_equilibrium, Rabs_R0. lra. }
    pose proof (balance_above_equilibrium T Hne ltac:(lra)) as Hup.
    pose proof (balance_near_equilibrium T Hne ltac:(lra)) as Hdown.
    assert (Hk' : (k < 64)%nat).
    { destruct (Nat.eq_dec k 64) as [-> | Hk64]; [| lia].
      exfalso. apply Hno. apply Rabs_def1; lra. }
    rewrite solver_loop_update by exact Hno.
    rewrite clip_id by lra.
    apply (IH (S k)); [lra | | lia | lia].
    simpl pow. lra.
Qed.
End WarmEquilibrium.

(** C9.  At present-day input the balance has an equilibrium [T_eq]
    between 285 K and 288 K; it is the only one in [[285, 400]] and it is
    stable (the balance is positive below it and negative above it).  With
    [initial_temp = 288], [solar_multiplier = 1.0] and the defaults
    [max_iterations = 1000], [tolerance = 0.01], the solver returns
    [converged = true] and a temperature within 1 K of [T_eq]. *)
Theorem present_day_warm_start_converges :
  exists T_eq : R,
    285 < T_eq < 288
    /\ energy_balance T_eq 1.0 = 0
    /\ (forall T : R,
           285 <= T <= 400 ->
           (T < T_eq -> 0 < energy_balance T 1.0)
           /\ (T_eq < T -> energy_balance T 1.0 < 0))
    /\ exists T : R,
         find_equilibrium_temperature 288 1.0 1000 0.01 = (T, true)
         /\ Rabs (T - T_eq) < 1.
Proof.
  replace 1.0 with 1 by lra.
  destruct warm_equilibrium_exists as (T_eq & Hregion & Hzero).
  exists T_eq. split; [exact Hregion |].
  split; [now apply balance_at_equilibrium |].
  split.
  - intros T HT. split; intros Hlt.
    + pose proof (balance_below_equilibrium T_eq Hregion Hzero T ltac:(lra) Hlt). lra.
    + pose proof (balance_above_equilibrium T_eq Hregion Hzero T Hlt ltac:(lra)). lra.
  - destruct (warm_loop_converges T_eq Hregion Hzero (Z.to_nat 1000) 0 288)
      as (T & Hres & Hlo & Hhi).
    + lra.
    + simpl pow. lra.
    + lia.
    + lia.
    + exists T. split; [exact Hres |]. apply Rabs_def1; lra.
Qed.

(** * Further properties *)

(** ** The feedback functions *)

(** X1.  [albedo] never rises with temperature: a warmer surface reflects
    no more than a colder one. *)
Theorem albedo_nonincreasing (T1 T2 : R) :
  T1 <= T2 -> albedo T2 <= albedo T1.
Proof.
  intros H12. rewrite !albedo_scalar.
  pose proof (tanh_increasing ((T1 - 273.15) / 10) ((T2 - 273.15) / 10) ltac:(lra)).
  lra.
Qed.

Lemma albedo_nonincreasing_witness :
  250 <= 300 /\ albedo 300 <= albedo 250.
Proof. split; [lra |]. apply (albedo_nonincreasing 250 300). lra. Defined.

(** X3.  The clip of [greenhouse_effect] is idle for [-826 <= T <= 2173],
    and so on the whole of the solver's range [[150, 400]]: there the value
    is the line [0.61 + 0.0001 * (T - 273.15)].  At -827 K and below the
    value is 0.5, at 2174 K and above it is 0.8. *)
Theorem greenhouse_effect_clip_idle (T : R) :
  (-826 <= T <= 2173 -> greenhouse_effect T = 0.61 + 0.0001 * (T - 273.15))
  /\ (T <= -827 -> greenhouse_effect T = 0.5)
  /\ (2174 <= T -> greenhouse_effect T = 0.8).
Proof.
  rewrite greenhouse_effect_scalar.
  split; [| split]; intros HT.
  - apply clip_id. lra.
  - apply clip_below; lra.
  - apply clip_above; lra.
Qed.

Lemma greenhouse_effect_clip_idle_witness :
  greenhouse_effect 150 = 0.61 + 0.0001 * (150 - 273.15)
  /\ greenhouse_effect (-1000) = 0.5
  /\ greenhouse_effect 2500 = 0.8.
Proof.
  split; [| split].
  - apply (proj1 (greenhouse_effect_clip_idle 150)). lra.
  - apply (proj1 (proj2 (greenhouse_effect_clip_idle (-1000)))). lra.
  - apply (proj2 (proj2 (greenhouse_effect_clip_idle 2500))). lra.
Defined.

(** X4.  On an array of temperatures [albedo] and [greenhouse_effect] give
    the array of their scalar values, and all three functions of the model
    return an array of the length they were given. *)
Theorem feedback_functions_vectorized (temperatures : list R) :
  albedo temperatures = map (fun T => albedo T) temperatures
  /\ greenhouse_effect temperatures = map (fun T => greenhouse_effect T) temperatures
  /\ length (albedo temperatures) = length temperatures
  /\ length (greenhouse_effect temperatures) = length temperatures
  /\ (forall m, length (energy_balance temperatures m) = length temperatures).
Proof.
  assert (Ha : albedo temperatures = map (fun T => albedo T) temperatures).
  { unfold albedo, Np.s_add, Np.s_mul, Np.s_sub, Np.tanh, Np.div_s, Np.sub_s.
    cbn [lift1 Numeric_array Numeric_scalar]. now rewrite !map_map. }
  assert (Hg : greenhouse_effect temperatures
               = map (fun T => greenhouse_effect T) temperatures).
  { unfold greenhouse_effect, Np.s_add, Np.s_mul, Np.sub_s, Np.clip.
    cbn [lift1 Numeric_array Numeric_scalar]. now rewrite !map_map. }
  repeat split; try assumption.
  - now rewrite Ha, length_map.
  - now rewrite Hg, length_map.
  - intros m. now rewrite energy_balance_array, length_map.
Qed.

(** X5.  At a fixed temperature [energy_balance] never falls when the solar
    multiplier rises: more sun gives no smaller a balance. *)
Theorem energy_balance_nondecreasing_in_solar_multiplier (T m1 m2 : R) :
  m1 <= m2 -> energy_balance T m1 <= energy_balance T m2.
Proof.
  intros Hm. rewrite !energy_balance_scalar.
  assert (Ha : 0.3 < albedo T < 0.6).
  { rewrite albedo_scalar. pose proof (tanh_bounds ((T - 273.15) / 10)). lra. }
  unfold SOLAR_CONSTANT. nra.
Qed.

Lemma energy_balance_nondecreasing_in_solar_multiplier_witness :
  0.7 <= 1 /\ energy_balance 288 0.7 <= energy_balance 288 1.
Proof.
  split; [lra |].
  apply (energy_balance_nondecreasing_in_solar_multiplier 288 0.7 1). lra.
Defined.

(** ** The solver: budget, tolerance and restarts *)

Lemma solver_loop_true_inv (n : nat) (m tol : R) : forall T T' : R,
  solver_loop n T m tol = (T', true) ->
  Rabs (energy_balance T' m) < tol /\ (0 < n)%nat.
Proof.
  induction n as [| n IH]; intros T T' Hres; [discriminate |].
  destruct (Rlt_dec (Rabs (energy_balance T m)) tol) as [Hy | Hno].
  - rewrite solver_loop_converged in Hres by exact Hy.
    injection Hres as <-. split; [exact Hy | lia].
  - rewrite solver_loop_update in Hres by exact Hno.
    split; [exact (proj1 (IH _ _ Hres)) | lia].
Qed.

Lemma solver_loop_false_in_range (n : nat) (m tol : R) (T T' : R) :
  solver_loop (S n) T m tol = (T', false) -> 150 <= T' <= 400.
Proof.
  intros Hres.
  destruct (Rlt_dec (Rabs (energy_balance T m)) tol) as [Hy | Hno].
  - rewrite solver_loop_converged in Hres by exact Hy. discriminate.
  - rewrite solver_loop_update in Hres by exact Hno.
    pose proof (solver_loop_in_range n
                  (clip (T + 0.1 * energy_balance T m) 150 400) m tol
                  (clip_range _ 150 400 ltac:(lra))) as Hr.
    now rewrite Hres in Hr.
Qed.

Lemma solver_loop_more_budget (n : nat) (m tol : R) : forall (n' : nat) (T T' : R),
  solver_loop n T m tol = (T', true) -> (n <= n')%nat ->
  solver_loop n' T m tol = (T', true).
Proof.
  induction n as [| n IH]; intros n' T T' Hres Hle; [discriminate |].
  destruct n' as [| n']; [lia |].
  destruct (Rlt_dec (Rabs (energy_balance T m)) tol) as [Hy | Hno].
  - rewrite solver_loop_converged in * by exact Hy. exact Hres.
  - rewrite solver_loop_update in * by exact Hno.
    apply (IH n' _ _ Hres). lia.
Qed.

Lemma solver_loop_continue (n : nat) (m tol : R) : forall (k : nat) (T T1 : R),
  solver_loop n T m tol = (T1, false) ->
  solver_loop (n + k) T m tol = solver_loop k T1 m tol.
Proof.
  induction n as [| n IH]; intros k T T1 Hres.
  - injection Hres as <-. reflexivity.
  - destruct (Rlt_dec (Rabs (energy_balance T m)) tol) as [Hy | Hno].
    + rewrite solver_loop_converged in Hres by exact Hy. discriminate.
    + change (S n + k)%nat with (S (n + k)).
      rewrite solver_loop_update in * by exact Hno.
      now apply IH.
Qed.

Lemma solver_loop_calls_converged (n : nat) (T m tol : R) :
  Rabs (energy_balance T m) < tol ->
  solver_loop_calls (S n) T m tol = ((T, true), [T]).
Proof.
  intros Hb. simpl. destruct (Rlt_dec _ _) as [_ | Hn]; [reflexivity | contradiction].
Qed.

Lemma solver_loop_calls_update (n : nat) (T m tol : R) :
  ~ Rabs (energy_balance T m) < tol ->
  solver_loop_calls (S n) T m tol =
  (fst (solver_loop_calls n (clip (T + 0.1 * energy_balance T m) 150 400) m tol),
   T :: snd (solver_loop_calls n (clip (T + 0.1 * energy_balance T m) 150 400) m tol)).
Proof.
  intros Hb. simpl. destruct (Rlt_dec _ _) as [Hy | _]; [contradiction |].
  now destruct (solver_loop_calls n _ m tol).
Qed.

Lemma solver_loop_calls_wider_tolerance (n : nat) (m tol tol' : R) :
  tol <= tol' -> forall T T1 : R,
  solver_loop n T m tol = (T1, true) ->
  (exists T2 : R, solver_loop n T m tol' = (T2, true))
  /\ (length (snd (solver_loop_calls n T m tol'))
      <= length (snd (solver_loop_calls n T m tol)))%nat.
Proof.
  intros Htol. induction n as [| n IH]; intros T T1 Hres; [discriminate |].
  destruct (Rlt_dec (Rabs (energy_balance T m)) tol') as [Hy' | Hno'].
  - split.
    + exists T. now apply solver_loop_converged.
    + rewrite (solver_loop_calls_converged n T m tol' Hy').
      destruct (Rlt_dec (Rabs (energy_balance T m)) tol) as [Hy | Hno].
      * rewrite (solver_loop_calls_converged n T m tol Hy). cbn [fst snd length]. lia.
      * rewrite (solver_loop_calls_update n T m tol Hno). cbn [fst snd length]. lia.
  - assert (Hno : ~ Rabs (energy_balance T m) < tol) by lra.
    rewrite solver_loop_update in Hres by exact Hno.
    rewrite solver_loop_update by exact Hno'.
    destruct (IH _ _ Hres) as [IH1 IH2]. split; [exact IH1 |].
    rewrite (solver_loop_calls_update n T m tol' Hno').
    rewrite (solver_loop_calls_update n T m tol Hno).
    cbn [fst snd length]. lia.
Qed.

Lemma solver_loop_calls_log (n : nat) (m tol : R) : forall T : R,
  (length (snd (solver_loop_calls n T m tol)) <= n)%nat
  /\ (snd (solver_loop n T m tol) = false ->
      length (snd (solver_loop_calls n T m tol)) = n)
  /\ (snd (solver_loop n T m tol) = true ->
      last (snd (solver_loop_calls n T m tol)) 0 = fst (solver_loop n T m tol))
  /\ ((0 < n)%nat -> nth_error (snd (solver_loop_calls n T m tol)) 0 = Some T)
  /\ (forall i x,
         nth_error (snd (solver_loop_calls n T m tol)) (S i) = Some x ->
         150 <= x <= 400).
Proof.
  induction n as [| n IH]; intros T.
  - simpl. split; [lia |]. split; [reflexivity |]. split; [discriminate |].
    split; [lia |]. intros i x Hx. discriminate.
  - destruct (Rlt_dec (Rabs (energy_balance T m)) tol) as [Hy | Hno].
    + rewrite (solver_loop_calls_converged n T m tol Hy).
      rewrite (solver_loop_converged n T m tol Hy). cbn [fst snd length last nth_error].
      split; [lia |]. split; [discriminate |]. split; [reflexivity |].
      split; [reflexivity |]. intros [| i] x Hx; discriminate.
    + rewrite (solver_loop_calls_update n T m tol Hno).
      rewrite (solver_loop_update n T m tol Hno). cbn [fst snd length nth_error].
      set (T' := clip (T + 0.1 * energy_balance T m) 150 400).
      destruct (IH T') as (Hlen & Hfalse & Htrue & Hhead & Hrest).
      split; [lia |]. split; [intros Hc; now rewrite Hfalse |].
      split.
      * intros Hc. rewrite <- (Htrue Hc).
        destruct n as [| n]; [discriminate |].
        specialize (Hhead ltac:(lia)).
        destruct (snd (solver_loop_calls (S n) T' m tol)); [discriminate | reflexivity].
      * split; [reflexivity |].
        intros [| i] x Hx.
        -- destruct n as [| n]; [discriminate |].
           rewrite Hhead in Hx by lia. injection Hx as <-.
           apply clip_range. lra.
        -- exact (Hrest i x Hx).
Qed.

Lemma find_500_converged :
  find_equilibrium_temperature 500 1 1000 5000 = (500, true).
Proof.
  apply find_equilibrium_temperature_first_test; [lia | exact energy_balance_500].
Qed.

Lemma find_288_one_iteration :
  find_equilibrium_temperature 288 1 1 0
  = (clip (288 + 0.1 * energy_balance 288 1) 150 400, false).
Proof.
  unfold find_equilibrium_temperature. change (Z.to_nat 1) with 1%nat.
  rewrite solver_loop_update; [reflexivity |].
  apply never_within_tolerance. lra.
Qed.

(** X6.  A result flagged converged meets the tolerance at the returned
    temperature, and can only come from a positive [max_iterations] and a
    positive [tolerance]; a result flagged not converged, after at least one
    iteration, lies within [[150, 400]]. *)
Theorem converged_result_meets_tolerance
  (init m : R) (max : Z) (tol T : R) :
  (find_equilibrium_temperature init m max tol = (T, true) ->
   Rabs (energy_balance T m) < tol /\ (0 < max)%Z /\ 0 < tol)
  /\ (find_equilibrium_temperature init m max tol = (T, false) ->
      (0 < max)%Z -> 150 <= T <= 400).
Proof.
  unfold find_equilibrium_temperature. split.
  - intros Hres. destruct (solver_loop_true_inv _ _ _ _ _ Hres) as [Hb Hn].
    split; [exact Hb |]. split; [lia |].
    pose proof (Rabs_pos (energy_balance T m)). lra.
  - intros Hres Hmax.
    destruct (Z.to_nat max) as [| n] eqn:Hn; [lia |].
    exact (solver_loop_false_in_range _ _ _ _ _ Hres).
Qed.

Lemma converged_result_meets_tolerance_witness :
  (Rabs (energy_balance 500 1) < 5000 /\ (0 < 1000)%Z /\ 0 < 5000)
  /\ 150 <= clip (288 + 0.1 * energy_balance 288 1) 150 400 <= 400.
Proof.
  split.
  - apply (proj1 (converged_result_meets_tolerance 500 1 1000 5000 500)).
    exact find_500_converged.
  - apply (proj2 (converged_result_meets_tolerance 288 1 1 0
                    (clip (288 + 0.1 * energy_balance 288 1) 150 400))).
    + exact find_288_one_iteration.
    + lia.
Defined.

(** X7.  A converged result does not depend on the budget: with any larger
    [max_iterations] the same temperature is returned, converged. *)
Theorem converged_result_stable_under_budget
  (init m : R) (max max' : Z) (tol T : R) :
  find_equilibrium_temperature init m max tol = (T, true) ->
  (max <= max')%Z ->
  find_equilibrium_temperature init m max' tol = (T, true).
Proof.
  unfold find_equilibrium_temperature. intros Hres Hle.
  apply (solver_loop_more_budget _ _ _ _ _ _ Hres). lia.
Qed.

Lemma converged_result_stable_under_budget_witness :
  find_equilibrium_temperature 500 1 2000 5000 = (500, true).
Proof.
  apply (converged_result_stable_under_budget 500 1 1000 2000 5000 500).
  - exact find_500_converged.
  - lia.
Defined.

(** X8.  A run that did not converge can be continued: calling the solver
    again from the returned temperature with [more] iterations gives what
    one call with [max + more] iterations gives. *)
Theorem unconverged_result_continues
  (init m : R) (max more : Z) (tol T : R) :
  (0 <= max)%Z -> (0 <= more)%Z ->
  find_equilibrium_temperature init m max tol = (T, false) ->
  find_equilibrium_temperature init m (max + more) tol
  = find_equilibrium_temperature T m more tol.
Proof.
  unfold find_equilibrium_temperature. intros Hmax Hmore Hres.
  rewrite Z2Nat.inj_add by assumption.
  now apply solver_loop_continue.
Qed.

Lemma unconverged_result_continues_witness :
  find_equilibrium_temperature 288 1 (1 + 999) 0
  = find_equilibrium_temperature
      (clip (288 + 0.1 * energy_balance 288 1) 150 400) 1 999 0.
Proof.
  apply (unconverged_result_continues 288 1 1 999 0).
  - lia.
  - lia.
  - exact find_288_one_iteration.
Defined.

(** X9.  A converged temperature is a fixed point of the solver: passed
    back as [initial_temp], with the same multiplier and tolerance and any
    positive budget, it is returned unchanged and converged. *)
Theorem converged_result_is_returned_unchanged
  (init m : R) (max max' : Z) (tol T : R) :
  find_equilibrium_temperature init m max tol = (T, true) ->
  (0 < max')%Z ->
  find_equilibrium_temperature T m max' tol = (T, true).
Proof.
  unfold find_equilibrium_temperature at 1. intros Hres Hmax'.
  apply find_equilibrium_temperature_first_test; [exact Hmax' |].
  exact (proj1 (solver_loop_true_inv _ _ _ _ _ Hres)).
Qed.

Lemma converged_result_is_returned_unchanged_witness :
  find_equilibrium_temperature 500 1 1 5000 = (500, true).
Proof.
  apply (converged_result_is_returned_unchanged 500 1 1000 1 5000 500).
  - exact find_500_converged.
  - lia.
Defined.

(** X10.  Widening the tolerance keeps convergence: if a call converges,
    the call with a larger tolerance converges too, and evaluates
    [energy_balance] no more often. *)
Theorem wider_tolerance_keeps_convergence
  (init m : R) (max : Z) (tol tol' T : R) :
  tol <= tol' ->
  find_equilibrium_temperature init m max tol = (T, true) ->
  (exists T' : R, find_equilibrium_temperature init m max tol' = (T', true))
  /\ (length (snd (find_equilibrium_temperature_calls init m max tol'))
      <= length (snd (find_equilibrium_temperature_calls init m max tol)))%nat.
Proof.
  unfold find_equilibrium_temperature, find_equilibrium_temperature_calls.
  intros Htol Hres. exact (solver_loop_calls_wider_tolerance _ _ _ _ Htol _ _ Hres).
Qed.

Lemma wider_tolerance_keeps_convergence_witness :
  (exists T' : R, find_equilibrium_temperature 500 1 1000 6000 = (T', true))
  /\ (length (snd (find_equilibrium_temperature_calls 500 1 1000 6000))
      <= length (snd (find_equilibrium_temperature_calls 500 1 1000 5000)))%nat.
Proof.
  apply (wider_tolerance_keeps_convergence 500 1 1000 5000 6000 500).
  - lra.
  - exact find_500_converged.
Defined.

(** X11.  [energy_balance] is evaluated at most [max_iterations] times, and
    exactly that often when the result is not converged.  The first
    evaluation, if any, is at [initial_temp]; every later one is at a
    temperature within [[150, 400]]; and when the result is converged the
    last evaluation is at the returned temperature. *)
Theorem energy_balance_evaluations
  (init m : R) (max : Z) (tol : R) :
  let result := find_equilibrium_temperature init m max tol in
  let calls := snd (find_equilibrium_temperature_calls init m max tol) in
  (length calls <= Z.to_nat max)%nat
  /\ (snd result = false -> length calls = Z.to_nat max)
  /\ (snd result = true -> last calls 0 = fst result)
  /\ ((0 < max)%Z -> nth_error calls 0 = Some init)
  /\ (forall i x, nth_error calls (S i) = Some x -> 150 <= x <= 400).
Proof.
  unfold find_equilibrium_temperature, find_equilibrium_temperature_calls.
  cbv zeta.
  destruct (solver_loop_calls_log (Z.to_nat max) m tol init)
    as (Hlen & Hfalse & Htrue & Hhead & Hrest).
  split; [exact Hlen |]. split; [exact Hfalse |]. split; [exact Htrue |].
  split; [| exact Hrest].
  intros Hmax. apply Hhead. lia.
Qed.

Lemma energy_balance_evaluations_witness :
  length (snd (find_equilibrium_temperature_calls 288 1 1 0)) = Z.to_nat 1
  /\ last (snd (find_equilibrium_temperature_calls 500 1 1000 5000)) 0 = 500
  /\ nth_error (snd (find_equilibrium_temperature_calls 288 1 1000 0.01)) 0 = Some 288.
Proof.
  split; [| split].
  - apply (proj1 (proj2 (energy_balance_evaluations 288 1 1 0))).
    now rewrite find_288_one_iteration.
  - pose proof (proj1 (proj2 (proj2 (energy_balance_evaluations 500 1 1000 5000)))) as H.
    rewrite find_500_converged in H. apply H. reflexivity.
  - apply (proj1 (proj2 (proj2 (proj2 (energy_balance_evaluations 288 1 1000 0.01))))).
    lia.
Defined.

(** ** A dim sun freezes *)

(** At 70 % of the solar constant or less the absorbed flux stays below
    167.2125 W m^-2 whatever the temperature. *)
Lemma energy_in_dim (T m : R) :
  m <= 0.7 -> (1 - albedo T) * (SOLAR_CONSTANT * m) / 4 <= 167.2125.
Proof.
  intros Hm.
  assert (Ha : 0.3 < albedo T < 0.6).
  { rewrite albedo_scalar. pose proof (tanh_bounds ((T - 273.15) / 10)). lra. }
  unfold SOLAR_CONSTANT.
  destruct (Rle_dec 0 m) as [Hpos | Hneg]; nra.
Qed.

(** The emitted flux from a lower bound on the temperature. *)
Lemma energy_out_from (T0 T : R) :
  0 <= T0 -> T0 <= T -> T <= 400 ->
  (0.61 + 0.0001 * (T0 - 273.15)) * STEFAN_BOLTZMANN * T0 ^ 4
  <= greenhouse_effect T * STEFAN_BOLTZMANN * T ^ 4.
Proof.
  intros H0 H0T HT.
  rewrite greenhouse_effect_scalar.
  destruct (Rle_dec (0.61 + 0.0001 * (T0 - 273.15)) 0) as [Hneg | Hpos].
  - apply Rle_trans with 0.
    + assert (0 <= STEFAN_BOLTZMANN * T0 ^ 4).
      { apply Rmult_le_pos; [unfold STEFAN_BOLTZMANN; lra | apply pow_le; lra]. }
      rewrite Rmult_assoc. nra.
    + pose proof (clip_range (0.61 + 0.0001 * (T - 273.15)) 0.5 0.8 ltac:(lra)).
      apply Rmult_le_pos; [apply Rmult_le_pos |];
        [lra | unfold STEFAN_BOLTZMANN; lra | apply pow_le; lra].
  - rewrite clip_id by lra.
    assert (H4 : T0 ^ 4 <= T ^ 4) by (apply pow_incr; lra).
    assert (H40 : 0 <= T0 ^ 4) by (apply pow_le; lra).
    unfold STEFAN_BOLTZMANN.
    apply Rmult_le_compat; [nra | exact H40 | nra | exact H4].
Qed.

Lemma dim_cooling (T m : R) :
  m <= 0.7 -> 273.15 <= T <= 400 -> energy_balance T m <= -25.
Proof.
  intros Hm HT. rewrite energy_balance_scalar.
  pose proof (energy_in_dim T m Hm) as Hin.
  pose proof (energy_out_from 273.15 T ltac:(lra) ltac:(lra) ltac:(lra)) as Hout.
  unfold STEFAN_BOLTZMANN in *. lra.
Qed.

Lemma dim_stays_frozen (T m : R) :
  m <= 0.7 -> 150 <= T < 273.15 ->
  150 <= clip (T + 0.1 * energy_balance T m) 150 400 < 273.15.
Proof.
  intros Hm HT.
  assert (Hb : T + 0.1 * energy_balance T m < 273.15).
  { rewrite energy_balance_scalar.
    pose proof (energy_in_dim T m Hm) as Hin.
    destruct (Rle_dec T 256) as [Hlow | Hmid].
    - pose proof (energy_out_from 150 T ltac:(lra) ltac:(lra) ltac:(lra)) as Hout.
      unfold STEFAN_BOLTZMANN in *. lra.
    - destruct (Rle_dec T 271) as [Hmid' | Hhigh].
      + pose proof (energy_out_from 256 T ltac:(lra) ltac:(lra) ltac:(lra)) as Hout.
        unfold STEFAN_BOLTZMANN in *. lra.
      + pose proof (energy_out_from 271 T ltac:(lra) ltac:(lra) ltac:(lra)) as Hout.
        unfold STEFAN_BOLTZMANN in *. lra. }
  pose proof (clip_range (T + 0.1 * energy_balance T m) 150 400 ltac:(lra)) as Hr.
  split; [lra |].
  destruct (Rle_dec 150 (T + 0.1 * energy_balance T m)) as [Hin | Hout].
  - rewrite clip_id; lra.
  - rewrite clip_below; lra.
Qed.

Lemma dim_loop_frozen (n : nat) (m tol : R) :
  m <= 0.7 -> tol <= 25 -> forall T : R,
  150 <= T <= 400 -> T - 273.15 < 2.5 * INR n ->
  fst (solver_loop n T m tol) < 273.15.
Proof.
  intros Hm Htol. induction n as [| n IH]; intros T HT Hfuel.
  - simpl in *. lra.
  - rewrite S_INR in Hfuel.
    destruct (Rlt_dec (Rabs (energy_balance T m)) tol) as [Hy | Hno].
    + rewrite solver_loop_converged by exact Hy. cbn [fst].
      destruct (Rlt_dec T 273.15) as [Hf | Hw]; [exact Hf |].
      pose proof (dim_cooling T m Hm ltac:(lra)) as Hc.
      apply Rabs_def2 in Hy. lra.
    + rewrite solver_loop_update by exact Hno.
      destruct (Rlt_dec T 273.15) as [Hf | Hw].
      * pose proof (dim_stays_frozen T m Hm ltac:(lra)) as Hs.
        pose proof (pos_INR n).
        apply IH; lra.
      * pose proof (dim_cooling T m Hm ltac:(lra)) as Hc.
        pose proof (clip_range (T + 0.1 * energy_balance T m) 150 400 ltac:(lra)) as Hr.
        assert (Hle : clip (T + 0.1 * energy_balance T m) 150 400 <= T - 2.5).
        { destruct (Rle_dec 150 (T + 0.1 * energy_balance T m)) as [Hin | Hout].
          - rewrite clip_id; lra.
          - rewrite clip_below; lra. }
        apply IH; lra.
Qed.

Lemma dim_find_frozen (init m : R) (max : Z) (tol : R) :
  m <= 0.7 -> 150 <= init <= 400 -> tol <= 25 -> (51 <= max)%Z ->
  fst (find_equilibrium_temperature init m max tol) < 273.15.
Proof.
  intros Hm Hinit Htol Hmax. unfold find_equilibrium_temperature.
  apply dim_loop_frozen; try assumption.
  assert (Hn : 51 <= INR (Z.to_nat max)).
  { replace 51 with (INR 51) by (simpl; lra). apply le_INR. lia. }
  lra.
Qed.

(** X12.  A dim sun freezes.  With a solar multiplier of 0.7 or less, an
    initial temperature within [[150, 400]], a tolerance of 25 W m^-2 or less
    and at least 51 iterations, the returned temperature is below the
    freezing point, converged or not. *)
Theorem dim_sun_ends_frozen
  (init m : R) (max : Z) (tol : R) :
  m <= 0.7 -> 150 <= init <= 400 -> tol <= 25 -> (51 <= max)%Z ->
  fst (find_equilibrium_temperature init m max tol) < 273.15.
Proof. exact (dim_find_frozen init m max tol). Qed.

Lemma dim_sun_ends_frozen_witness :
  fst (find_equilibrium_temperature 288 0.7 1000 0.01) < 273.15.
Proof.
  apply (dim_sun_ends_frozen 288 0.7 1000 0.01); try lra. lia.
Defined.

(** ** The basin of the warm equilibrium *)

Lemma exp_217 : 7.6 <= exp 2.17.
Proof.
  pose proof (exp_ge_pow 2.17 16 ltac:(lia)) as H.
  rewrite INR_IZR_INZ in H. change (Z.of_nat 16) with 16%Z in H.
  assert (Hb : 7.6 <= (1 + 2.17 / 16) ^ 16) by lra.
  lra.
Qed.

Lemma tanh_1085 : 0.76 <= tanh 1.085.
Proof.
  rewrite tanh_exp. replace (2 * 1.085) with 2.17 by lra.
  pose proof exp_217 as He.
  assert (Hinv : / (exp 2.17 + 1) <= / 8.6).
  { apply Rinv_le_contravar; lra. }
  unfold Rdiv. lra.
Qed.

Lemma warm_slope_range (T : R) :
  284 <= T <= 400 -> -9.2 <= warm_slope T <= -1.
Proof.
  intros HT. unfold warm_slope.
  set (t := tanh ((T - 273.15) / 10)).
  assert (Ht : 0.76 <= t < 1).
  { split; [| apply tanh_bounds].
    apply Rle_trans with (tanh 1.085); [apply tanh_1085 |].
    apply tanh_increasing. lra. }
  assert (Ht2 : 0.5776 <= t ^ 2 <= 1) by nra.
  assert (H3 : 284 ^ 3 <= T ^ 3 <= 400 ^ 3) by (split; apply pow_incr; lra).
  assert (H4 : 284 ^ 4 <= T ^ 4 <= 400 ^ 4) by (split; apply pow_incr; lra).
  assert (Hlo : 0.611085 * 284 ^ 3 <= (0.61 + 0.0001 * (T - 273.15)) * T ^ 3).
  { apply Rmult_le_compat; lra. }
  assert (Hhi : (0.61 + 0.0001 * (T - 273.15)) * T ^ 3 <= 0.622685 * 400 ^ 3).
  { apply Rmult_le_compat; lra. }
  lra.
Qed.

(** Between two temperatures of [[284, 400]] the balance changes by a slope
    between -9.2 and -1. *)
Lemma warm_balance_chord (a b : R) :
  284 <= a <= 400 -> 284 <= b <= 400 ->
  exists s : R, -9.2 <= s <= -1 /\ warm_balance b - warm_balance a = s * (b - a).
Proof.
  intros Ha Hb.
  destruct (Rtotal_order a b) as [Hab | [<- | Hba]].
  - destruct (MVT_cor2 warm_balance warm_slope a b Hab
                (fun c _ => derivable_pt_lim_warm_balance c)) as (c & Hc & Hin).
    exists (warm_slope c). split; [apply warm_slope_range; lra | exact Hc].
  - exists (-1). split; lra.
  - destruct (MVT_cor2 warm_balance warm_slope b a Hba
                (fun c _ => derivable_pt_lim_warm_balance c)) as (c & Hc & Hin).
    exists (warm_slope c). split; [apply warm_slope_range; lra | lra].
Qed.

Section WarmBasin.
Variable T_eq : R.
Hypothesis T_eq_region : 285 < T_eq < 288.
Hypothesis T_eq_balance : warm_balance T_eq = 0.

Lemma balance_chord_from_equilibrium (T : R) :
  284 <= T <= 400 ->
  exists s : R, -9.2 <= s <= -1 /\ energy_balance T 1 = s * (T - T_eq).
Proof.
  intros HT. rewrite energy_balance_warm by lra.
  destruct (warm_balance_chord T_eq T ltac:(lra) HT) as (s & Hs & Hc).
  exists s. split; [exact Hs | lra].
Qed.

Lemma warm_basin_loop (tol : R) (n : nat) :
  0.01 <= tol -> forall (k : nat) (T : R),
  284 <= T <= 400 ->
  Rabs (T - T_eq) <= 116 * 0.9 ^ k ->
  (k <= 128)%nat -> (128 < k + n)%nat ->
  exists T' : R,
    solver_loop n T 1 tol = (T', true)
    /\ 284 <= T' <= 400 /\ Rabs (T' - T_eq) < tol.
Proof.
  intros Htol. induction n as [| n IH]; intros k T HT Hgap Hk Hkn; [lia |].
  destruct (balance_chord_from_equilibrium T HT) as (s & Hs & Hb).
  destruct (Rlt_dec (Rabs (energy_balance T 1)) tol) as [Hy | Hno].
  - exists T. rewrite solver_loop_converged by exact Hy.
    split; [reflexivity |]. split; [exact HT |].
    rewrite Hb in Hy. apply Rabs_def2 in Hy. apply Rabs_def1; nra.
  - assert (Hgap' : - (116 * 0.9 ^ k) <= T - T_eq <= 116 * 0.9 ^ k).
    { revert Hgap. unfold Rabs. destruct (Rcase_abs (T - T_eq)); lra. }
    assert (Hk' : (k < 128)%nat).
    { destruct (Nat.eq_dec k 128) as [-> | Hne]; [| lia].
      exfalso. apply Hno. rewrite Hb.
      assert (Hsmall : 9.2 * (116 * 0.9 ^ 128) < 0.01) by lra.
      set (g := 116 * 0.9 ^ 128) in *.
      apply Rabs_def1; nra. }
    rewrite solver_loop_update by exact Hno.
    assert (Hnext : 150 <= T + 0.1 * energy_balance T 1 <= 400
                    /\ 284 <= T + 0.1 * energy_balance T 1
                    /\ Rabs (T + 0.1 * energy_balance T 1 - T_eq) <= 0.9 * Rabs (T - T_eq)).
    { rewrite Hb.
      destruct (Rle_dec 0 (T - T_eq)) as [Hpos | Hneg].
      - rewrite (Rabs_right (T - T_eq)) by lra.
        rewrite Rabs_right by nra. repeat split; nra.
      - rewrite (Rabs_left (T - T_eq)) by lra.
        rewrite Rabs_left by nra. repeat split; nra. }
    destruct Hnext as (Hclip & Hlow & Hcontract).
    rewrite clip_id by exact Hclip.
    apply (IH (S k)); [lra | | lia | lia].
    simpl pow. lra.
Qed.
End WarmBasin.

Lemma warm_basin_find :
  exists T_eq : R,
    285 < T_eq < 288
    /\ energy_balance T_eq 1 = 0
    /\ forall (init : R) (max : Z) (tol : R),
         284 <= init <= 400 -> 0.01 <= tol -> (129 <= max)%Z ->
         exists T : R,
           find_equilibrium_temperature init 1 max tol = (T, true)
           /\ Rabs (T - T_eq) < tol.
Proof.
  destruct warm_equilibrium_exists as (T_eq & Hregion & Hzero).
  exists T_eq. split; [exact Hregion |].
  split; [now apply balance_at_equilibrium |].
  intros init max tol Hinit Htol Hmax.
  destruct (warm_basin_loop T_eq Hregion Hzero tol (Z.to_nat max) Htol 0 init)
    as (T & Hres & _ & Hnear).
  - exact Hinit.
  - simpl pow. unfold Rabs. destruct (Rcase_abs (init - T_eq)); lra.
  - lia.
  - lia.
  - exists T. split; [exact Hres | exact Hnear].
Qed.

(** X13.  The basin of the warm equilibrium at present-day input.  There is
    an equilibrium [T_eq] between 285 K and 288 K such that from every
    initial temperature within [[284, 400]], with a tolerance of at least
    0.01 and at least 129 iterations, the solver converges and returns a
    temperature closer to [T_eq] than the tolerance. *)
Theorem warm_basin_converges :
  exists T_eq : R,
    285 < T_eq < 288
    /\ energy_balance T_eq 1 = 0
    /\ forall (init : R) (max : Z) (tol : R),
         284 <= init <= 400 -> 0.01 <= tol -> (129 <= max)%Z ->
         exists T : R,
           find_equilibrium_temperature init 1 max tol = (T, true)
           /\ Rabs (T - T_eq) < tol.
Proof. exact warm_basin_find. Qed.

Lemma warm_basin_converges_witness :
  exists T_eq T : R,
    find_equilibrium_temperature 350 1 1000 0.01 = (T, true)
    /\ Rabs (T - T_eq) < 0.01.
Proof.
  destruct warm_basin_converges as (T_eq & _ & _ & Hbasin).
  destruct (Hbasin 350 1000%Z 0.01) as (T & Hres & Hnear).
  - lra.
  - lra.
  - lia.
  - now exists T_eq, T.
Defined.

(** ** Zero crossings *)

Lemma where_from_In (mask : list bool) : forall (start idx : nat),
  In idx (map fst (filter snd (combine (seq start (length mask)) mask)))
  <-> (start <= idx)%nat /\ nth_error mask (idx - start) = Some true.
Proof.
  induction mask as [| b mask IH]; intros start idx; simpl.
  - split; [contradiction | intros [_ H]; destruct (idx - start)%nat; discriminate].
  - assert (Hrest : In idx (map fst (filter snd (combine (seq (S start) (length mask)) mask)))
                    <-> (start < idx)%nat /\ nth_error mask (idx - S start) = Some true).
    { rewrite IH. split; intros [H1 H2]; (split; [lia | exact H2]). }
    destruct b; simpl; rewrite Hrest; split.
    + intros [<- | [Hlt Hn]].
      * split; [lia |]. now rewrite Nat.sub_diag.
      * split; [lia |].
        replace (idx - start)%nat with (S (idx - S start)) by lia. exact Hn.
    + intros [Hle Hn].
      destruct (Nat.eq_dec start idx) as [Heq | Hne]; [now left | right].
      split; [lia |].
      replace (idx - start)%nat with (S (idx - S start)) in Hn by lia. exact Hn.
    + intros [Hlt Hn]. split; [lia |].
      replace (idx - start)%nat with (S (idx - S start)) by lia. exact Hn.
    + intros [Hle Hn].
      destruct (Nat.eq_dec start idx) as [<- | Hne].
      * rewrite Nat.sub_diag in Hn. discriminate.
      * split; [lia |].
        replace (idx - start)%nat with (S (idx - S start)) in Hn by lia. exact Hn.
Qed.

Lemma where_from_sorted (mask : list bool) : forall start : nat,
  StronglySorted lt (map fst (filter snd (combine (seq start (length mask)) mask))).
Proof.
  induction mask as [| b mask IH]; intros start; simpl.
  - constructor.
  - destruct b; simpl; [| apply IH].
    constructor; [apply IH |].
    apply Forall_forall. intros idx Hin.
    apply where_from_In in Hin. lia.
Qed.

Lemma where_true_In (mask : list bool) (idx : nat) :
  In idx (where_true mask) <-> nth_error mask idx = Some true.
Proof.
  unfold where_true. rewrite where_from_In, Nat.sub_0_r.
  split; [intros [_ H]; exact H | intros H; split; [lia | exact H]].
Qed.

Lemma nth_error_diff (a : list R) : forall (i : nat) (d : R),
  nth_error (diff a) i = Some d
  <-> exists x y : R,
        nth_error a i = Some x /\ nth_error a (S i) = Some y /\ d = y - x.
Proof.
  induction a as [| x a IH]; intros i d.
  - simpl. split; [destruct i; discriminate |].
    intros (x & y & Hx & _). destruct i; discriminate.
  - destruct a as [| y a].
    + simpl. split; [destruct i; discriminate |].
      intros (x' & y' & _ & Hy & _). destruct i; discriminate.
    + change (diff (x :: y :: a)) with ((y - x) :: diff (y :: a)).
      destruct i as [| i].
      * simpl. split.
        -- intros Hd. injection Hd as <-. now exists x, y.
        -- intros (x' & y' & Hx & Hy & ->).
           injection Hx as <-. injection Hy as <-. reflexivity.
      * change (nth_error ((y - x) :: diff (y :: a)) (S i))
          with (nth_error (diff (y :: a)) i).
        rewrite IH. reflexivity.
Qed.

Lemma sign_values (x : R) :
  (x < 0 /\ sign x = -1) \/ (x = 0 /\ sign x = 0) \/ (0 < x /\ sign x = 1).
Proof.
  unfold sign.
  destruct (Rlt_dec x 0) as [Hn | Hn]; [now left |].
  destruct (Rlt_dec 0 x) as [Hp | Hp]; [now right; right |].
  right; left. split; [lra | reflexivity].
Qed.

Lemma truthy_diff_sign (x y : R) :
  truthy (sign y - sign x) = true <-> sign x <> sign y.
Proof.
  unfold truthy. destruct (Req_dec_T (sign y - sign x) 0) as [He | Hne]; split.
  - discriminate.
  - intros Hd. exfalso. apply Hd. lra.
  - intros _ Hs. apply Hne. lra.
  - reflexivity.
Qed.

Lemma zero_crossings_In (balance : list R) (idx : nat) :
  In idx (zero_crossings balance)
  <-> exists x y : R,
        nth_error balance idx = Some x
        /\ nth_error balance (S idx) = Some y
        /\ sign x <> sign y.
Proof.
  unfold zero_crossings. rewrite where_true_In, nth_error_map.
  cbn [lift1 Numeric_array].
  split.
  - destruct (nth_error (diff (map sign balance)) idx) as [d |] eqn:Hd; [| discriminate].
    simpl. intros Hnz. injection Hnz as Hnz.
    apply nth_error_diff in Hd. destruct Hd as (sx & sy & Hx & Hy & ->).
    rewrite nth_error_map in Hx, Hy.
    destruct (nth_error balance idx) as [x |] eqn:Ex; [| discriminate].
    destruct (nth_error balance (S idx)) as [y |] eqn:Ey; [| discriminate].
    cbn [option_map] in Hx, Hy. injection Hx as <-. injection Hy as <-.
    exists x, y. split; [reflexivity |]. split; [exact Ey |].
    now apply truthy_diff_sign.
  - intros (x & y & Hx & Hy & Hs).
    assert (Hd : nth_error (diff (map sign balance)) idx = Some (sign y - sign x)).
    { apply nth_error_diff. exists (sign x), (sign y).
      rewrite !nth_error_map, Hx, Hy. now repeat split. }
    rewrite Hd. simpl. f_equal. now apply truthy_diff_sign.
Qed.

(** X14.  The indices found by the zero-crossing scan come in increasing
    order and are exactly the positions where the sign of the balance
    differs between a sample and the next one; each leaves a sample after it,
    so [temperatures[idx]] is always in range. *)
Theorem zero_crossings_are_sign_changes (balance : list R) :
  StronglySorted lt (zero_crossings balance)
  /\ (forall idx : nat,
         In idx (zero_crossings balance)
         <-> exists x y : R,
               nth_error balance idx = Some x
               /\ nth_error balance (S idx) = Some y
               /\ sign x <> sign y)
  /\ (forall idx : nat,
         In idx (zero_crossings balance) -> (S idx < length balance)%nat).
Proof.
  split; [apply where_from_sorted |].
  split; [apply zero_crossings_In |].
  intros idx Hin. apply zero_crossings_In in Hin.
  destruct Hin as (x & y & _ & Hy & _).
  apply nth_error_Some. now rewrite Hy.
Qed.

Lemma zero_crossing_between (balance : list R) (i j : nat) (x y : R) :
  (i < j)%nat ->
  nth_error balance i = Some x ->
  nth_error balance j = Some y ->
  sign x <> sign y ->
  exists idx : nat, (i <= idx < j)%nat /\ In idx (zero_crossings balance).
Proof.
  intros Hij Hx Hy Hs. revert y Hy Hs.
  induction j as [| j IH]; intros y Hy Hs; [lia |].
  assert (Hj : exists z, nth_error balance j = Some z).
  { destruct (nth_error balance j) as [z |] eqn:Hz; [now exists z |].
    apply nth_error_None in Hz.
    assert (S j < length balance)%nat by (apply nth_error_Some; now rewrite Hy).
    lia. }
  destruct Hj as (z & Hz).
  destruct (Req_dec (sign z) (sign y)) as [Heq | Hne].
  - destruct (Nat.eq_dec i j) as [-> | Hneq].
    + rewrite Hx in Hz. injection Hz as <-. contradiction.
    + assert (Hlt : (i < j)%nat) by lia.
      assert (Hs' : sign x <> sign z) by now rewrite Heq.
      destruct (IH Hlt z Hz Hs') as (idx & Hidx & Hin).
      exists idx. split; [lia | exact Hin].
  - exists j. split; [lia |]. apply zero_crossings_In. now exists z, y.
Qed.

(** X15.  The scan misses no sign change: whenever the balance has
    different signs at two samples [i < j], a zero crossing is found at some
    index [idx] with [i <= idx < j]. *)
Theorem sign_change_is_bracketed (balance : list R) (i j : nat) (x y : R) :
  (i < j)%nat ->
  nth_error balance i = Some x ->
  nth_error balance j = Some y ->
  sign x <> sign y ->
  exists idx : nat, (i <= idx < j)%nat /\ In idx (zero_crossings balance).
Proof. exact (zero_crossing_between balance i j x y). Qed.

Lemma sign_3_1_m2 : sign 3 = 1 /\ sign 1 = 1 /\ sign (-2) = -1.
Proof.
  unfold sign.
  destruct (Rlt_dec 3 0) as [H | _]; [lra |].
  destruct (Rlt_dec 0 3) as [_ | H]; [| lra].
  destruct (Rlt_dec 1 0) as [H | _]; [lra |].
  destruct (Rlt_dec 0 1) as [_ | H]; [| lra].
  destruct (Rlt_dec (-2) 0) as [_ | H]; [| lra].
  repeat split.
Qed.

Lemma zero_crossings_are_sign_changes_witness :
  In 1%nat (zero_crossings [3; 1; -2]) /\ lt 2 (length [3; 1; -2]).
Proof.
  assert (Hin : In 1%nat (zero_crossings [3; 1; -2])).
  { apply zero_crossings_In. exists 1, (-2).
    split; [reflexivity |]. split; [reflexivity |].
    destruct sign_3_1_m2 as (_ & -> & ->). lra. }
  split; [exact Hin |].
  exact (proj2 (proj2 (zero_crossings_are_sign_changes [3; 1; -2])) 1%nat Hin).
Defined.

Lemma sign_change_is_bracketed_witness :
  exists idx : nat,
    (0 <= idx < 2)%nat /\ In idx (zero_crossings [3; 1; -2]).
Proof.
  apply (sign_change_is_bracketed [3; 1; -2] 0 2 3 (-2)).
  - lia.
  - reflexivity.
  - reflexivity.
  - destruct sign_3_1_m2 as (-> & _ & ->). lra.
Defined.

(** ** The markers of the plot at present-day input *)

Lemma linspace_nth_lt (start stop : R) (num i : nat) :
  (i < num)%nat ->
  nth_error (linspace start stop num) i
  = Some (start + INR i * ((stop - start) / INR (num - 1))).
Proof.
  intros Hi. unfold linspace.
  rewrite nth_error_map.
  rewrite (nth_error_nth' _ 0%nat) by now rewrite length_seq.
  rewrite seq_nth by exact Hi. reflexivity.
Qed.

Lemma linspace_length (start stop : R) (num : nat) :
  length (linspace start stop num) = num.
Proof. unfold linspace. now rewrite length_map, length_seq. Qed.

Lemma INR_199 : INR (200 - 1) = 199.
Proof. change (200 - 1)%nat with 199%nat. rewrite INR_IZR_INZ. reflexivity. Qed.

(** The samples of the plot are 120/199 K apart, from 200 K. *)
Lemma plot_grid_nth (i : nat) (t : R) :
  nth_error (linspace 200 320 200) i = Some t <->
  (i < 200)%nat /\ t = 200 + INR i * (120 / 199).
Proof.
  split.
  - intros Hi. apply linspace_nth in Hi. destruct Hi as [Hlt ->].
    split; [exact Hlt |]. rewrite INR_199. lra.
  - intros [Hlt ->]. rewrite linspace_nth_lt by exact Hlt.
    rewrite INR_199. f_equal. lra.
Qed.

Lemma plot_balance_nth (m : R) (i : nat) (x : R) :
  nth_error (energy_balance (linspace 200 320 200) m) i = Some x <->
  (i < 200)%nat /\ x = energy_balance (200 + INR i * (120 / 199)) m.
Proof.
  rewrite energy_balance_array, nth_error_map.
  split.
  - destruct (nth_error (linspace 200 320 200) i) as [t |] eqn:Ht; [| discriminate].
    apply plot_grid_nth in Ht. destruct Ht as [Hlt ->].
    simpl. intros Hx. injection Hx as <-. now split.
  - intros [Hlt ->].
    rewrite (proj2 (plot_grid_nth i _) (conj Hlt eq_refl)). reflexivity.
Qed.

Lemma plot_markers_In (m t : R) :
  In t (plot_energy_balance_curve m) <->
  exists idx : nat,
    (S idx < 200)%nat
    /\ t = 200 + INR idx * (120 / 199)
    /\ sign (energy_balance t m)
       <> sign (energy_balance (t + 120 / 199) m).
Proof.
  unfold plot_energy_balance_curve. cbv zeta. rewrite in_map_iff.
  split.
  - intros (idx & Ht & Hin).
    apply zero_crossings_In in Hin. destruct Hin as (x & y & Hx & Hy & Hs).
    apply plot_balance_nth in Hx, Hy.
    destruct Hx as [Hlt ->]. destruct Hy as [Hlt' ->].
    assert (Hnth : nth idx (linspace 200 320 200) 0 = 200 + INR idx * (120 / 199)).
    { apply nth_error_nth. now apply plot_grid_nth. }
    rewrite Hnth in Ht. subst t.
    exists idx. split; [exact Hlt' |]. split; [reflexivity |].
    rewrite S_INR in Hs.
    replace (200 + INR idx * (120 / 199) + 120 / 199)
      with (200 + (INR idx + 1) * (120 / 199)) by lra.
    exact Hs.
  - intros (idx & Hlt & -> & Hs).
    exists idx. split.
    + apply nth_error_nth. apply plot_grid_nth. split; [lia | reflexivity].
    + apply zero_crossings_In.
      exists (energy_balance (200 + INR idx * (120 / 199)) m),
             (energy_balance (200 + INR (S idx) * (120 / 199)) m).
      split; [apply plot_balance_nth; split; [lia | reflexivity] |].
      split; [apply plot_balance_nth; split; [lia | reflexivity] |].
      rewrite S_INR.
      replace (200 + (INR idx + 1) * (120 / 199))
        with (200 + INR idx * (120 / 199) + 120 / 199) by lra.
      exact Hs.
Qed.

(** X16.  A temperature is marked by [plot_energy_balance_curve] exactly
    when it is one of the first 199 samples, which start at 200 K and are
    120/199 K apart, and the balance has a different sign at the next
    sample.  The marker is the left end of the interval where the sign
    changes. *)
Theorem plot_markers_are_sign_changes (m t : R) :
  In t (plot_energy_balance_curve m) <->
  exists idx : nat,
    (idx < 199)%nat
    /\ t = 200 + INR idx * (120 / 199)
    /\ sign (energy_balance t m)
       <> sign (energy_balance (t + 120 / 199) m).
Proof.
  rewrite plot_markers_In.
  split; intros (idx & Hlt & Ht & Hs); exists idx; (split; [lia | now split]).
Qed.

Section WarmMarkers.
Variable T_eq : R.
Hypothesis T_eq_region : 285 < T_eq < 288.
Hypothesis T_eq_balance : warm_balance T_eq = 0.

Lemma sign_around_equilibrium (T : R) :
  284 <= T <= 400 ->
  (T < T_eq -> sign (energy_balance T 1) = 1)
  /\ (T_eq < T -> sign (energy_balance T 1) = -1).
Proof.
  intros HT.
  destruct (balance_chord_from_equilibrium T_eq T_eq_region T_eq_balance T HT)
    as (s & Hs & Hb).
  destruct (sign_values (energy_balance T 1)) as [[Hv Hsg] | [[Hv Hsg] | [Hv Hsg]]];
    rewrite Hsg; split; intros Hlt; try reflexivity; exfalso; nra.
Qed.

Lemma warm_marker_brackets (t : R) :
  In t (plot_energy_balance_curve 1) -> 284 <= t ->
  t <= T_eq <= t + 120 / 199.
Proof.
  intros Hin Ht. apply plot_markers_In in Hin.
  destruct Hin as (idx & Hlt & Hidx & Hs).
  assert (Hup : t + 120 / 199 <= 320).
  { subst t.
    assert (H199 : INR 199 = 199) by (rewrite INR_IZR_INZ; reflexivity).
    assert (Hle : INR (S idx) <= INR 199) by (apply le_INR; lia).
    rewrite S_INR, H199 in Hle. lra. }
  destruct (sign_around_equilibrium t ltac:(lra)) as [Hbelow Habove].
  destruct (sign_around_equilibrium (t + 120 / 199) ltac:(lra)) as [Hbelow' Habove'].
  split.
  - destruct (Rle_dec t T_eq) as [Hle | Hgt]; [exact Hle |].
    exfalso. apply Hs. rewrite Habove, Habove' by lra. reflexivity.
  - destruct (Rle_dec T_eq (t + 120 / 199)) as [Hle | Hgt]; [exact Hle |].
    exfalso. apply Hs. rewrite Hbelow, Hbelow' by lra. reflexivity.
Qed.

Lemma warm_marker_exists :
  exists t : R, In t (plot_energy_balance_curve 1) /\ 284 <= t.
Proof.
  set (balance := energy_balance (linspace 200 320 200) 1).
  assert (H140 : INR 140 = 140) by (rewrite INR_IZR_INZ; reflexivity).
  assert (H146 : INR 146 = 146) by (rewrite INR_IZR_INZ; reflexivity).
  destruct (zero_crossing_between balance 140 146
              (energy_balance (200 + INR 140 * (120 / 199)) 1)
              (energy_balance (200 + INR 146 * (120 / 199)) 1))
    as (idx & Hidx & Hin).
  - lia.
  - apply plot_balance_nth. split; [lia | reflexivity].
  - apply plot_balance_nth. split; [lia | reflexivity].
  - rewrite H140, H146.
    rewrite (proj1 (sign_around_equilibrium (200 + 140 * (120 / 199)) ltac:(lra)))
      by lra.
    rewrite (proj2 (sign_around_equilibrium (200 + 146 * (120 / 199)) ltac:(lra)))
      by lra.
    lra.
  - exists (nth idx (linspace 200 320 200) 0). split.
    + unfold plot_energy_balance_curve. cbv zeta. apply in_map_iff.
      exists idx. split; [reflexivity | exact Hin].
    + assert (Hnth : nth idx (linspace 200 320 200) 0 = 200 + INR idx * (120 / 199)).
      { apply nth_error_nth. apply plot_grid_nth. split; [lia | reflexivity]. }
      rewrite Hnth.
      assert (INR 140 <= INR idx) by (apply le_INR; lia).
      lra.
Qed.
End WarmMarkers.

(** X17.  At present-day input the plot marks the warm equilibrium: there
    is a marker at 284 K or above, and every such marker lies at most one
    sample spacing, 120/199 K, below the equilibrium [T_eq] of the
    285 K - 288 K region, never above it. *)
Theorem plot_marks_warm_equilibrium :
  exists T_eq : R,
    285 < T_eq < 288
    /\ energy_balance T_eq 1 = 0
    /\ (exists t : R, In t (plot_energy_balance_curve 1) /\ 284 <= t)
    /\ (forall t : R,
           In t (plot_energy_balance_curve 1) -> 284 <= t ->
           t <= T_eq <= t + 120 / 199).
Proof.
  destruct warm_equilibrium_exists as (T_eq & Hregion & Hzero).
  exists T_eq. split; [exact Hregion |].
  split; [now apply balance_at_equilibrium |].
  split.
  - now apply (warm_marker_exists T_eq).
  - now apply warm_marker_brackets.
Qed.

Lemma plot_marks_warm_equilibrium_witness :
  exists T_eq t : R,
    In t (plot_energy_balance_curve 1) /\ 284 <= t
    /\ t <= T_eq <= t + 120 / 199.
Proof.
  destruct plot_marks_warm_equilibrium as (T_eq & _ & _ & (t & Hin & Ht) & Hall).
  exists T_eq, t. split; [exact Hin |]. split; [exact Ht |].
  exact (Hall t Hin Ht).
Defined.

(** ** The report of [run_snowball_experiment] *)

Lemma solar_multipliers_nth (i : nat) (m : R) :
  nth_error solar_multipliers i = Some m <->
  (i < 20)%nat /\ m = 0.85 + INR i * (0.2 / 19).
Proof.
  unfold solar_multipliers.
  assert (H19 : INR (20 - 1) = 19).
  { change (20 - 1)%nat with 19%nat. rewrite INR_IZR_INZ. reflexivity. }
  split.
  - intros Hi. apply linspace_nth in Hi. destruct Hi as [Hlt ->].
    split; [exact Hlt |]. rewrite H19. lra.
  - intros [Hlt ->]. rewrite linspace_nth_lt by exact Hlt.
    rewrite H19. f_equal. lra.
Qed.

(** X18.  The entry printed as "Current Earth (S = 1.00)",
    [equilibrium_temps[10]], is the sweep entry of the multiplier
    [0.85 + 10 * (0.2 / 19)], which is below 0.96; no multiplier of the sweep
    equals 1. *)
Theorem current_earth_entry_multiplier :
  current_earth_entry (fst run_snowball_experiment)
  = Some (sweep_entry (0.85 + 10 * (0.2 / 19)))
  /\ 0.85 + 10 * (0.2 / 19) < 0.96
  /\ (forall (i : nat) (m : R), nth_error solar_multipliers i = Some m -> m <> 1).
Proof.
  split; [| split].
  - unfold current_earth_entry, run_snowball_experiment, snowball_experiment, sweep.
    cbn [fst]. rewrite nth_error_map.
    rewrite (proj2 (solar_multipliers_nth 10 (0.85 + INR 10 * (0.2 / 19))))
      by (split; [lia | reflexivity]).
    cbn [option_map]. do 2 f_equal.
    rewrite INR_IZR_INZ. reflexivity.
  - lra.
  - intros i m Hi Hone. apply solar_multipliers_nth in Hi. destruct Hi as [_ ->].
    assert (Hi : INR i = 14.25) by lra.
    destruct (Nat.le_gt_cases i 14) as [Hle | Hgt].
    + apply le_INR in Hle. rewrite (INR_IZR_INZ 14) in Hle. simpl in Hle. lra.
    + apply le_INR in Hgt. rewrite (INR_IZR_INZ 15) in Hgt. simpl in Hgt. lra.
Qed.

Lemma current_earth_entry_multiplier_witness :
  nth_error solar_multipliers 14 = Some (0.85 + INR 14 * (0.2 / 19))
  /\ 0.85 + INR 14 * (0.2 / 19) <> 1.
Proof.
  assert (H : nth_error solar_multipliers 14 = Some (0.85 + INR 14 * (0.2 / 19))).
  { apply solar_multipliers_nth. split; [lia | reflexivity]. }
  split; [exact H |].
  exact (proj2 (proj2 current_earth_entry_multiplier) 14%nat _ H).
Defined.

Lemma existsb_id_true (mask : list bool) :
  existsb (fun b => b) mask = true -> exists j, nth_error mask j = Some true.
Proof.
  induction mask as [| b mask IH]; simpl; [discriminate |].
  destruct b; simpl.
  - intros _. now exists 0%nat.
  - intros He. destruct (IH He) as (j & Hj). now exists (S j).
Qed.

Lemma critical_solar_of_none_iff (ms : list R) (temps : list entry) :
  length ms = length temps ->
  critical_solar_of ms temps = None
  <-> (forall j tj, nth_error temps j = Some (Some tj) -> ~ tj < 273.15).
Proof.
  intros Hlen. split; [now apply critical_solar_of_none |].
  intros Hnone. unfold critical_solar_of.
  destruct (existsb (fun b => b) (map below_freezing_entry temps)) eqn:He;
    [| reflexivity].
  exfalso. apply existsb_id_true in He. destruct He as (j & Hj).
  rewrite nth_error_map in Hj.
  destruct (nth_error temps j) as [e |] eqn:Hej; [| discriminate].
  simpl in Hj. injection Hj as Hj.
  apply below_freezing_entry_true in Hj. destruct Hj as (x & -> & Hx).
  exact (Hnone j x Hej Hx).
Qed.

(** X19.  The sweep records one entry per multiplier, and no threshold is
    reported exactly when no entry is below 273.15 K: once an entry is below
    freezing the index lookup finds its multiplier. *)
Theorem threshold_reported_iff_some_entry_frozen (ms : list R) :
  length (fst (snowball_experiment ms)) = length ms
  /\ (snd (snowball_experiment ms) = None
      <-> forall (j : nat) (tj : R),
            nth_error (fst (snowball_experiment ms)) j = Some (Some tj) ->
            ~ tj < 273.15).
Proof.
  unfold snowball_experiment. cbn [fst snd].
  assert (Hlen : length (sweep ms) = length ms) by (unfold sweep; apply length_map).
  split; [exact Hlen |].
  apply critical_solar_of_none_iff. now rewrite Hlen.
Qed.

(** ** The examples *)

Lemma frozen_true (temp : R) : frozen temp = true <-> temp < 273.15.
Proof.
  unfold frozen. destruct (Rlt_dec temp 273.15); split; try easy.
Qed.

(** X20.  What the examples print.  Example 1 reports a converged
    temperature above 273.15 K; example 2, at 70 % of the solar constant,
    prints its warning; the first row of example 4, for [s = 1.0], has the
    status Liquid. *)
Theorem examples_report :
  (exists temp : R,
      example_1_current_earth = (temp, true)
      /\ 273.15 < temp /\ frozen temp = false)
  /\ snd example_2_reduced_solar = true
  /\ (exists temp : R,
         nth_error example_4_snowball_threshold 0 = Some (1.0, temp, false)).
Proof.
  destruct warm_basin_find as (T_eq & Hregion & _ & Hbasin).
  destruct (Hbasin 288 1000%Z 0.01 ltac:(lra) ltac:(lra) ltac:(lia))
    as (T & Hres & Hnear).
  assert (Habove : 273.15 < T).
  { apply Rabs_def2 in Hnear. lra. }
  assert (Hwarm : frozen T = false).
  { destruct (frozen T) eqn:Hf; [| reflexivity].
    apply frozen_true in Hf. lra. }
  split; [| split].
  - exists T. unfold example_1_current_earth, default_max_iterations, default_tolerance.
    replace 1.0 with 1 by lra. now repeat split.
  - unfold example_2_reduced_solar, default_max_iterations, default_tolerance.
    pose proof (dim_find_frozen 288 0.7 1000 0.01
                  ltac:(lra) ltac:(lra) ltac:(lra) ltac:(lia)) as Hf.
    destruct (find_equilibrium_temperature 288 0.7 1000 0.01) as [temp converged].
    cbn [fst snd] in *. now apply frozen_true.
  - exists T. unfold example_4_snowball_threshold, default_max_iterations,
      default_tolerance. cbn [map nth_error].
    replace 1.0 with 1 by lra. rewrite Hres, Hwarm. reflexivity.
Qed.
